(** * ICD11-Retriever: normalisation, hierarchy reconstruction, graph queries

    A shallow embedding of [src/icd11_retriever/ICD11_Retriever.py]:
    [ICD11Processor] (record normalisation), [ICD11HierarchyBuilder]
    (URL-to-UUID extraction and adjacency lists) and [ICD11GraphBuilder]
    (the directed graph and its two title-addressed queries).

    Python values that come out of [json.load] are modelled by [json];
    a Python [dict] is an association list in insertion order; a Python
    exception is the [Err] branch of [result]. *)

From Stdlib Require Import List String Ascii ZArith Bool Arith Lia.
Import ListNotations.
Open Scope string_scope.
Open Scope list_scope.

Set Implicit Arguments.

(** ** Python values and exceptions *)

(** What [json.load] produces.  [JNum] carries integer literals; literals
    with a fractional part (Python floats) are outside the model.  A
    [JObj] is a [dict] with [str] keys, in the order of the document. *)
#[warnings="-register-all"]
Inductive json : Type :=
| JNull : json
| JBool : bool -> json
| JNum : Z -> json
| JStr : string -> json
| JArr : list json -> json
| JObj : list (string * json) -> json.

(** The exceptions the code can raise. *)
Inductive exn : Type :=
| AttributeError : exn
| TypeError : exn
| KeyError : exn
| NetworkXError : exn
| ValueError : string -> exn.

Inductive result (A : Type) : Type :=
| Ok : A -> result A
| Err : exn -> result A.
Arguments Ok {A} _.
Arguments Err {A} _.

Definition bind {A B : Type} (m : result A) (f : A -> result B) : result B :=
  match m with
  | Ok a => f a
  | Err e => Err e
  end.

Notation "x <- m ;; k" := (bind m (fun x => k))
  (at level 61, m at next level, right associativity).

(** [for x in xs: ...] with a body that can raise and a threaded state. *)
Fixpoint for_each {A S : Type} (body : S -> A -> result S) (xs : list A)
  (s : S) : result S :=
  match xs with
  | [] => Ok s
  | x :: rest => s' <- body s x ;; for_each body rest s'
  end.

(** [[f(x) for x in xs]] with an [f] that can raise. *)
Fixpoint map_result {A B : Type} (f : A -> result B) (xs : list A)
  : result (list B) :=
  match xs with
  | [] => Ok []
  | x :: rest => y <- f x ;; ys <- map_result f rest ;; Ok (y :: ys)
  end.

(** Python truthiness, as used by [if x:]. *)
Definition truthy (v : json) : bool :=
  match v with
  | JNull => false
  | JBool b => b
  | JNum z => negb (Z.eqb z 0)
  | JStr s => negb (String.eqb s "")
  | JArr l => match l with [] => false | _ => true end
  | JObj d => match d with [] => false | _ => true end
  end.

(** A Python [str] is a sequence of code points; a [string] holds its
    UTF-8 encoding.  A code point is a leading byte with the continuation
    bytes (of the form 10xxxxxx) that follow it. *)
Definition is_continuation (c : ascii) : bool :=
  Nat.leb 128 (nat_of_ascii c) && Nat.ltb (nat_of_ascii c) 192.

Fixpoint code_points (s : string) : list string :=
  match s with
  | EmptyString => []
  | String c r =>
      match r with
      | EmptyString => [String c EmptyString]
      | String c' _ =>
          if is_continuation c' then
            match code_points r with
            | g :: gs => String c g :: gs
            | [] => [String c EmptyString]
            end
          else String c EmptyString :: code_points r
      end
  end.

(** What [for x in v] iterates over: the elements of a list, the
    one-character strings of a [str] (one per code point), the keys of a
    [dict]; anything else is not iterable. *)
Definition chars (s : string) : list json := map JStr (code_points s).

Definition iterate (v : json) : result (list json) :=
  match v with
  | JArr l => Ok l
  | JStr s => Ok (chars s)
  | JObj d => Ok (map (fun kv => JStr (fst kv)) d)
  | _ => Err TypeError
  end.

(** ** Dictionaries *)

(** An insertion-ordered dictionary over a key equality [eqb]. *)
Section Dict.
Variables (K V : Type) (eqb : K -> K -> bool).

Fixpoint dict_get (d : list (K * V)) (k : K) : option V :=
  match d with
  | [] => None
  | (k', v) :: rest => if eqb k' k then Some v else dict_get rest k
  end.

Definition dict_mem (d : list (K * V)) (k : K) : bool :=
  match dict_get d k with Some _ => true | None => false end.

(** [d[k] = v]: an existing key keeps its place (and its key object),
    a new key goes to the end. *)
Fixpoint dict_set (d : list (K * V)) (k : K) (v : V) : list (K * V) :=
  match d with
  | [] => [(k, v)]
  | (k', v') :: rest =>
      if eqb k' k then (k', v) :: rest else (k', v') :: dict_set rest k v
  end.

Definition dict_keys (d : list (K * V)) : list K := map fst d.
End Dict.

(** [obj.get(key, default)] on a value that should be a [dict]. *)
Definition get (obj : json) (key : string) (default : json) : result json :=
  match obj with
  | JObj d =>
      match dict_get String.eqb d key with
      | Some v => Ok v
      | None => Ok default
      end
  | _ => Err AttributeError
  end.

(** [d.get(key, default)] on a value that is a [dict]. *)
Definition get_default (d : list (string * json)) (key : string)
  (default : json) : json :=
  match dict_get String.eqb d key with
  | Some v => v
  | None => default
  end.

(** [d.update(other)]. *)
Definition dict_update (d other : list (string * json)) : list (string * json) :=
  fold_left (fun acc kv => dict_set String.eqb acc (fst kv) (snd kv)) other d.

(** Only immutable values can be dictionary keys. *)
Definition hashable (v : json) : bool :=
  match v with
  | JArr _ | JObj _ => false
  | _ => true
  end.

(** Equality of dictionary keys: [True == 1] and [False == 0], and they
    hash alike. *)
Definition py_key_eqb (a b : json) : bool :=
  match a, b with
  | JNull, JNull => true
  | JStr s, JStr t => String.eqb s t
  | JBool x, JBool y => Bool.eqb x y
  | JNum x, JNum y => Z.eqb x y
  | JBool x, JNum y => Z.eqb (Z.b2z x) y
  | JNum x, JBool y => Z.eqb x (Z.b2z y)
  | _, _ => false
  end.

(** ** ICD11Processor: record normalisation *)

(** The dictionary [ICD11_subset] that [extract_values] returns, with its
    six keys ['id'], ['parent'], ['child'], ['title'], ['def'] and
    ['synonyms'].  Each field holds what [v.get(key)] returns, so [JNull]
    stands for a key that a dictionary of this shape would lack. *)
Record NormalizedRecord : Type := {
  n_id : json;
  n_parent : json;
  n_child : json;
  n_title : json;
  n_def : json;
  n_synonyms : json
}.

Module ICD11Processor.

(** The comprehension
    [[syn.get('label', {}).get('@value', '') for syn in syns
      if syn.get('label', {}).get('@value')]]. *)
Fixpoint synonym_values (syns : list json) : result (list json) :=
  match syns with
  | [] => Ok []
  | syn :: rest =>
      label <- get syn "label" (JObj []) ;;
      cond <- get label "@value" JNull ;;
      if truthy cond then
        label' <- get syn "label" (JObj []) ;;
        value <- get label' "@value" (JStr "") ;;
        values <- synonym_values rest ;;
        Ok (value :: values)
      else synonym_values rest
  end.

Definition extract_values (ICD11_values : json) : result NormalizedRecord :=
  id <- get ICD11_values "@id" JNull ;;
  parent <- get ICD11_values "parent" (JStr "") ;;
  child <- get ICD11_values "child" (JStr "") ;;
  title_obj <- get ICD11_values "title" (JObj []) ;;
  title <- get title_obj "@value" (JStr "") ;;
  def_obj <- get ICD11_values "definition" (JObj []) ;;
  def <- get def_obj "@value" (JStr "") ;;
  syns <- get ICD11_values "synonym" JNull ;;
  synonyms <- (if truthy syns then
                 items <- iterate syns ;; synonym_values items
               else Ok []) ;;
  Ok {| n_id := id; n_parent := parent; n_child := child;
        n_title := title; n_def := def; n_synonyms := JArr synonyms |}.

(** One turn of the loop of [process]; the raw key [k] is not used. *)
Definition process_step (Formatted_data : list (json * NormalizedRecord))
  (kv : string * json) : result (list (json * NormalizedRecord)) :=
  let (k, v) := kv in
  ICD11_subset <- extract_values v ;;
  let entry_id := n_id ICD11_subset in
  if truthy entry_id then
    if hashable entry_id then
      Ok (dict_set py_key_eqb Formatted_data entry_id ICD11_subset)
    else Err TypeError
  else Ok Formatted_data.

(** [process], from [self.data] (the items of the loaded document) to
    [self.Formatted_data]. *)
Definition process (data : list (string * json))
  : result (list (json * NormalizedRecord)) :=
  for_each process_step data [].

End ICD11Processor.

(** ** HierarchyBuilder: short identifiers *)

(** [url.rsplit('/', 1)] on a [str]: the split at the last ['/'], or
    [None] when there is none (Python then returns [[url]]). *)
Fixpoint rsplit_last (s : string) : option (string * string) :=
  match s with
  | EmptyString => None
  | String c r =>
      match rsplit_last r with
      | Some (h, t) => Some (String c h, t)
      | None => if Ascii.eqb c "/" then Some (EmptyString, r) else None
      end
  end.

Definition rsplit1 (s : string) : list string :=
  match rsplit_last s with
  | Some (h, t) => [h; t]
  | None => [s]
  end.

(** [extract_uid]: [url.rsplit('/', 1)[-1]]. *)
Definition extract_uid (url : string) : string :=
  last (rsplit1 url) EmptyString.

(** No ['/'] occurs in the string. *)
Fixpoint no_slash (s : string) : bool :=
  match s with
  | EmptyString => true
  | String c r => negb (Ascii.eqb c "/") && no_slash r
  end.

(** The dictionary stored in [self.Data[uid]], with its five keys. *)
Record HierarchyNode : Type := {
  h_title : json;
  h_def : json;
  h_synonyms : json;
  h_parents : list string;
  h_children : list string
}.

Module ICD11HierarchyBuilder.

(** [extract_uid] on a value of any type: only a [str] has [rsplit]. *)
Definition extract_uid_val (url : json) : result string :=
  match url with
  | JStr s => Ok (extract_uid s)
  | _ => Err AttributeError
  end.

(** [[self.extract_uid(url) for url in urls] if urls else []]. *)
Definition extract_uids (urls : json) : result (list string) :=
  if truthy urls then
    items <- iterate urls ;; map_result extract_uid_val items
  else Ok [].

(** [self.UUIDs] is a Python set, which has no insertion order: it is
    held as the list of its elements in increasing order, whatever the
    order in which they were added. *)
Fixpoint set_insert (x : string) (s : list string) : list string :=
  match s with
  | [] => [x]
  | y :: rest =>
      match String.compare x y with
      | Lt => x :: y :: rest
      | Eq => y :: rest
      | Gt => y :: set_insert x rest
      end
  end.

(** [self.UUIDs.add(uid)]: nothing changes when [uid] is there already. *)
Definition set_add (s : list string) (x : string) : list string :=
  if existsb (String.eqb x) s then s else set_insert x s.

(** The builder's mutable state: [self.UUIDs] and [self.Data]. *)
Record state : Type := {
  UUIDs : list string;
  Data : list (string * HierarchyNode)
}.

Definition init : state := {| UUIDs := []; Data := [] |}.

(** The dictionary literal of the loop body. *)
Definition node_of (v : NormalizedRecord) : result HierarchyNode :=
  parents <- extract_uids (n_parent v) ;;
  children <- extract_uids (n_child v) ;;
  Ok {| h_title := n_title v; h_def := n_def v;
        h_synonyms := n_synonyms v;
        h_parents := parents; h_children := children |}.

Definition build_step (self : state) (kv : json * NormalizedRecord)
  : result state :=
  let (k, v) := kv in
  uid <- extract_uid_val k ;;
  let uuids := set_add (UUIDs self) uid in
  node <- node_of v ;;
  Ok {| UUIDs := uuids; Data := dict_set String.eqb (Data self) uid node |}.

Definition build_from (self : state) (ICD11 : list (json * NormalizedRecord))
  : result state :=
  for_each build_step ICD11 self.

(** [build] on a fresh builder; the result is [self.Data]. *)
Definition build (ICD11 : list (json * NormalizedRecord))
  : result (list (string * HierarchyNode)) :=
  st <- build_from init ICD11 ;; Ok (Data st).

End ICD11HierarchyBuilder.

(** ** The directed graph *)

(** [networkx.DiGraph], a library outside the repository, modelled on its
    documented data structure: [_node] maps a node to its attribute
    dictionary and [_succ] maps a node to its successors, both in
    insertion order.  ([_pred] mirrors [_succ] and is not read by the
    queries.)  Nodes are the short identifiers, hence strings. *)
Module DiGraph.

Record t : Type := {
  node_ : list (string * list (string * json));
  succ_ : list (string * list string)
}.

Definition empty : t := {| node_ := []; succ_ := [] |}.

Definition has_node (g : t) (n : string) : bool :=
  dict_mem String.eqb (succ_ g) n.

(** The keys of the inner dictionary [_succ[n]]; empty off the graph. *)
Definition adj (g : t) (n : string) : list string :=
  match dict_get String.eqb (succ_ g) n with
  | Some l => l
  | None => []
  end.

(** A node seen for the first time gets an empty attribute dictionary
    and an empty adjacency. *)
Definition ensure_node (g : t) (n : string) : t :=
  if has_node g n then g
  else {| node_ := dict_set String.eqb (node_ g) n [];
          succ_ := dict_set String.eqb (succ_ g) n [] |}.

(** [G.add_node(n, **attr)]. *)
Definition add_node (g : t) (n : string) (attr : list (string * json)) : t :=
  let g' := ensure_node g n in
  {| node_ := dict_set String.eqb (node_ g') n
                (dict_update
                   (match dict_get String.eqb (node_ g') n with
                    | Some a => a
                    | None => []
                    end) attr);
     succ_ := succ_ g' |}.

(** [_succ[u][v] = {}]: a successor already present keeps its place. *)
Definition adj_add (l : list string) (v : string) : list string :=
  if existsb (String.eqb v) l then l else l ++ [v].

(** [G.add_edge(u, v)]. *)
Definition add_edge (g : t) (u v : string) : t :=
  let g' := ensure_node (ensure_node g u) v in
  {| node_ := node_ g';
     succ_ := dict_set String.eqb (succ_ g') u (adj_add (adj g' u) v) |}.

(** [G.nodes()], in insertion order. *)
Definition nodes (g : t) : list string := dict_keys (node_ g).

(** [G.nodes[n]]. *)
Definition node_view (g : t) (n : string) : result (list (string * json)) :=
  match dict_get String.eqb (node_ g) n with
  | Some a => Ok a
  | None => Err KeyError
  end.

(** [G.successors(n)]. *)
Definition successors (g : t) (n : string) : result (list string) :=
  if has_node g n then Ok (adj g n) else Err NetworkXError.

(** One parent of the breadth-first search: every child not yet seen is
    marked, yielded and queued. *)
Definition visit (acc : list string * list string) (child : string)
  : list string * list string :=
  let (seen, fresh) := acc in
  if existsb (String.eqb child) seen then (seen, fresh)
  else (seen ++ [child], fresh ++ [child]).

(** [bfs_edges]: [seen] are the marked nodes, [queue] the parents whose
    children are still to be examined; the result is the marked nodes
    in the order they were discovered. *)
Fixpoint bfs (fuel : nat) (g : t) (seen queue : list string) : list string :=
  match fuel with
  | O => seen
  | S fuel' =>
      match queue with
      | [] => seen
      | parent :: rest =>
          let (seen', fresh) := fold_left visit (adj g parent) (seen, []) in
          bfs fuel' g seen' (rest ++ fresh)
      end
  end.

(** [networkx.descendants(G, source)]: the children yielded by the
    breadth-first search from [source], that is every marked node but
    [source] itself.  The Python result is a set; the list here has it
    in discovery order. *)
Definition descendants (g : t) (source : string) : result (list string) :=
  if has_node g source then
    Ok (tl (bfs (List.length (node_ g)) g [source] [source]))
  else Err NetworkXError.

End DiGraph.

(** ** ICD11GraphBuilder *)

Module ICD11GraphBuilder.

(** The object: [self.ICD11_Hierarchy] and [self.G] ([None] until
    [build] has run). *)
Record t : Type := {
  ICD11_Hierarchy : list (string * HierarchyNode);
  G : option DiGraph.t
}.

(** [__init__]. *)
Definition init (ICD11_Hierarchy : list (string * HierarchyNode)) : t :=
  {| ICD11_Hierarchy := ICD11_Hierarchy; G := None |}.

(** One turn of the outer loop of [build].  A [HierarchyNode] has all
    its keys, so the defaults of [data.get] do not apply. *)
Definition build_node (g : DiGraph.t) (kv : string * HierarchyNode)
  : DiGraph.t :=
  let (node_id, data) := kv in
  fold_left (fun g child_id => DiGraph.add_edge g node_id child_id)
    (h_children data)
    (DiGraph.add_node g node_id
       [("title", h_title data); ("definition", h_def data);
        ("synonyms", h_synonyms data)]).

Definition build_graph (h : list (string * HierarchyNode)) : DiGraph.t :=
  fold_left build_node h DiGraph.empty.

(** [build]. *)
Definition build (self : t) : t :=
  {| ICD11_Hierarchy := ICD11_Hierarchy self;
     G := Some (build_graph (ICD11_Hierarchy self)) |}.

Definition not_built : exn := ValueError "Graph not built. Call build() first.".

(** [title == target_title] for a target that is a [str]. *)
Definition title_eqb (title : json) (target_title : string) : bool :=
  match title with
  | JStr s => String.eqb s target_title
  | _ => false
  end.

(** The dictionary appended to [children_info] for one successor. *)
Definition child_info (g : DiGraph.t) (child_id : string) : result json :=
  a <- DiGraph.node_view g child_id ;;
  Ok (JObj [("id", JStr child_id);
            ("title", get_default a "title" (JStr "N/A"));
            ("definition", get_default a "definition" (JStr "N/A"));
            ("synonyms", get_default a "synonyms" (JArr []))]).

(** The dictionary assigned to [results] when [node_id] matches. *)
Definition children_result (g : DiGraph.t) (node_id : string) (title : json)
  : result json :=
  succs <- DiGraph.successors g node_id ;;
  children_info <- map_result (child_info g) succs ;;
  Ok (JObj [("parent_id", JStr node_id);
            ("parent_title", title);
            ("children", JArr children_info)]).

(** One turn of the scan: a match overwrites [results]. *)
Definition scan_step (found : DiGraph.t -> string -> json -> result json)
  (g : DiGraph.t) (target_title : string) (results : json)
  (node_id : string) : result json :=
  a <- DiGraph.node_view g node_id ;;
  let title := get_default a "title" (JStr "") in
  if title_eqb title target_title then found g node_id title
  else Ok results.

Definition get_children_with_info (self : t) (target_title : string)
  : result json :=
  match G self with
  | None => Err not_built
  | Some g =>
      for_each (scan_step children_result g target_title)
        (DiGraph.nodes g) (JObj [])
  end.

Definition count (A : Type) (l : list A) : json := JNum (Z.of_nat (List.length l)).

Definition descendants_result (g : DiGraph.t) (node_id : string)
  (title : json) : result json :=
  all_descendants <- DiGraph.descendants g node_id ;;
  direct_children <- DiGraph.successors g node_id ;;
  Ok (JObj [("node_id", JStr node_id);
            ("title", title);
            ("direct_children", JArr (map JStr direct_children));
            ("all_descendants", JArr (map JStr all_descendants));
            ("direct_children_count", count direct_children);
            ("total_descendants_count", count all_descendants)]).

Definition get_all_descendants_by_title (self : t) (target_title : string)
  : result json :=
  match G self with
  | None => Err not_built
  | Some g =>
      for_each (scan_step descendants_result g target_title)
        (DiGraph.nodes g) (JObj [])
  end.

End ICD11GraphBuilder.

(** ** The pipeline *)

(** What a driver that sequences the three components holds at the end:
    [Formatted_data], the hierarchy [Data], the graph and the two query
    results for one title. *)
Record pipeline_output : Type := {
  out_normalized : list (json * NormalizedRecord);
  out_hierarchy : list (string * HierarchyNode);
  out_graph : option DiGraph.t;
  out_children : json;
  out_descendants : json
}.

Definition run_pipeline (raw : list (string * json)) (target_title : string)
  : result pipeline_output :=
  formatted <- ICD11Processor.process raw ;;
  hierarchy <- ICD11HierarchyBuilder.build formatted ;;
  let builder := ICD11GraphBuilder.build (ICD11GraphBuilder.init hierarchy) in
  children <- ICD11GraphBuilder.get_children_with_info builder target_title ;;
  descendants <-
    ICD11GraphBuilder.get_all_descendants_by_title builder target_title ;;
  Ok {| out_normalized := formatted; out_hierarchy := hierarchy;
        out_graph := ICD11GraphBuilder.G builder;
        out_children := children; out_descendants := descendants |}.

(** The two-entry document of the scenario, as written. *)
Definition scenario_raw : list (string * json) :=
  [("http://x/A",
    JObj [("title", JObj [("@value", JStr "Root")]);
          ("child", JArr [JStr "http://x/B"])]);
   ("http://x/B",
    JObj [("title", JObj [("@value", JStr "Leaf")]);
          ("parent", JArr [JStr "http://x/A"])])].

(** The same document with each entry carrying its key as ['@id']. *)
Definition scenario_raw_with_ids : list (string * json) :=
  [("http://x/A",
    JObj [("@id", JStr "http://x/A");
          ("title", JObj [("@value", JStr "Root")]);
          ("child", JArr [JStr "http://x/B"])]);
   ("http://x/B",
    JObj [("@id", JStr "http://x/B");
          ("title", JObj [("@value", JStr "Leaf")]);
          ("parent", JArr [JStr "http://x/A"])])].

(** A hierarchy in which two nodes bear the title ["T"] and the first of
    them has a child, ["c"], that is not a key. *)
Definition shared_title_hierarchy : list (string * HierarchyNode) :=
  [("P", {| h_title := JStr "T"; h_def := JStr "first";
            h_synonyms := JArr []; h_parents := [];
            h_children := ["c"] |});
   ("Q", {| h_title := JStr "T"; h_def := JStr "second";
            h_synonyms := JArr []; h_parents := [];
            h_children := [] |})].

(** A hierarchy whose only key, ["A"], has a child, ["B"], that is not a
    key. *)
Definition dangling_child_hierarchy : list (string * HierarchyNode) :=
  [("A", {| h_title := JStr "Root"; h_def := JStr "";
            h_synonyms := JArr []; h_parents := [];
            h_children := ["B"] |})].

(** ** Vocabulary of the statements *)

(** A [parent]/[child] field that holds the references [refs]: a list of
    reference strings, or nothing ([None], [''], [[]], any falsy value). *)
Inductive refs_field : json -> list string -> Prop :=
| refs_list : forall refs, refs_field (JArr (map JStr refs)) refs
| refs_empty : forall v, truthy v = false -> refs_field v [].

(** The shape of a raw entry that [extract_values] and [process] expect:
    an object whose ['title'] and ['definition'], when present, are
    objects, whose ['synonym'], when present and not empty, is a list of
    objects with ['label'] an object when present, and whose ['@id'], when
    present and not empty, can be a dictionary key. *)
Definition is_obj (v : json) : bool :=
  match v with JObj _ => true | _ => false end.

Definition field_obj (d : list (string * json)) (key : string) : bool :=
  match dict_get String.eqb d key with
  | None => true
  | Some v => is_obj v
  end.

Definition synonym_ok (syn : json) : bool :=
  match syn with
  | JObj s => field_obj s "label"
  | _ => false
  end.

Definition synonyms_ok (d : list (string * json)) : bool :=
  match dict_get String.eqb d "synonym" with
  | None => true
  | Some (JArr l) => forallb synonym_ok l
  | Some v => negb (truthy v)
  end.

Definition id_ok (d : list (string * json)) : bool :=
  match dict_get String.eqb d "@id" with
  | None => true
  | Some v => negb (truthy v) || hashable v
  end.

Definition well_shaped (v : json) : bool :=
  match v with
  | JObj d =>
      field_obj d "title" && field_obj d "definition"
      && synonyms_ok d && id_ok d
  | _ => false
  end.

(** The canonical id of a raw entry: [v.get('@id')]. *)
Definition canonical_id (v : json) : json :=
  match v with
  | JObj d => get_default d "@id" JNull
  | _ => JNull
  end.

(** The defaults of [extract_values]: a sub-field that the raw entry lacks
    reads as the empty string, a missing ['synonym'] as the empty list,
    and no key of the record is ever missing. *)
Definition defaults_applied (v : json) (r : NormalizedRecord) : Prop :=
  forall d, v = JObj d ->
    (dict_get String.eqb d "parent" = None -> n_parent r = JStr "")
    /\ (dict_get String.eqb d "child" = None -> n_child r = JStr "")
    /\ (dict_get String.eqb d "title" = None -> n_title r = JStr "")
    /\ (forall t, dict_get String.eqb d "title" = Some (JObj t) ->
                  n_title r = get_default t "@value" (JStr ""))
    /\ (dict_get String.eqb d "definition" = None -> n_def r = JStr "")
    /\ (forall t, dict_get String.eqb d "definition" = Some (JObj t) ->
                  n_def r = get_default t "@value" (JStr ""))
    /\ (dict_get String.eqb d "synonym" = None -> n_synonyms r = JArr [])
    /\ (exists l, n_synonyms r = JArr l).

Module GraphSpec.
Import DiGraph.

(** The attribute dictionary of a node, empty off the graph. *)
Definition attrs (g : t) (n : string) : list (string * json) :=
  match dict_get String.eqb (node_ g) n with
  | Some a => a
  | None => []
  end.

(** The ['title'] attribute of a node, when it has one. *)
Definition title_attribute (g : t) (n : string) : option json :=
  dict_get String.eqb (attrs g n) "title".

(** The title the scan reads at a node: [G.nodes[n].get('title', '')]. *)
Definition node_title (g : t) (n : string) : json :=
  get_default (attrs g n) "title" (JStr "").

Definition matches (g : t) (target_title : string) (n : string) : bool :=
  ICD11GraphBuilder.title_eqb (node_title g n) target_title.

(** [n] is the last node, in the iteration order of [G.nodes()], whose
    title is [target_title]. *)
Definition last_match (g : t) (target_title : string) (n : string) : Prop :=
  exists before after,
    nodes g = before ++ n :: after
    /\ matches g target_title n = true
    /\ forall m, In m after -> matches g target_title m = false.

(** The entry of [children] for a successor. *)
Definition child_entry (g : t) (c : string) : json :=
  JObj [("id", JStr c);
        ("title", get_default (attrs g c) "title" (JStr "N/A"));
        ("definition", get_default (attrs g c) "definition" (JStr "N/A"));
        ("synonyms", get_default (attrs g c) "synonyms" (JArr []))].

(** The entry of a successor that has no attributes. *)
Definition bare_entry (c : string) : json :=
  JObj [("id", JStr c); ("title", JStr "N/A");
        ("definition", JStr "N/A"); ("synonyms", JArr [])].

(** Every node has an adjacency and every edge ends at a node. *)
Definition wf (g : t) : Prop :=
  map fst (node_ g) = map fst (succ_ g)
  /\ forall u v, In v (adj g u) -> In v (nodes g).

(** [y] is reachable from [x] along zero or more edges. *)
Inductive reach (g : t) (x : string) : string -> Prop :=
| reach_refl : reach g x x
| reach_step : forall y z, reach g x y -> In z (adj g y) -> reach g x z.

(** [z] is reachable from [x] along one or more edges. *)
Inductive reach_plus (g : t) (x : string) : string -> Prop :=
| plus_edge : forall z, In z (adj g x) -> reach_plus g x z
| plus_step : forall y z, reach_plus g x y -> In z (adj g y) ->
                          reach_plus g x z.

(** The targets of the calls [add_edge(n, _)] that [build] makes, in the
    order it makes them. *)
Definition edge_targets (h : list (string * HierarchyNode)) (n : string)
  : list string :=
  flat_map (fun kv => if String.eqb (fst kv) n then h_children (snd kv)
                      else []) h.

(** A sequence with every repetition after the first dropped. *)
Definition first_occurrences (l : list string) : list string :=
  fold_left adj_add l [].

(** The same, written without the graph's operations: the head is kept
    and removed from what follows. *)
Fixpoint keep_first (l : list string) : list string :=
  match l with
  | [] => []
  | x :: rest =>
      x :: filter (fun y => negb (String.eqb y x)) (keep_first rest)
  end.

(** The state of the breadth-first search from [source] between two
    parents: the marked nodes are distinct nodes of the graph, start with
    [source], are all reachable from it, and each of them is still queued
    or has all its successors marked. *)
Record bfs_inv (g : t) (source : string) (seen queue : list string)
  : Prop := {
  inv_nodup : NoDup seen;
  inv_nodes : incl seen (nodes g);
  inv_head : exists rest, seen = source :: rest;
  inv_queue : incl queue seen;
  inv_reach : forall x, In x seen -> reach g source x;
  inv_closed : forall x, In x seen -> In x queue \/ incl (adj g x) seen
}.

End GraphSpec.

(** ** Vocabulary of the further properties *)

(** The value read off one synonym of the expected shape:
    [syn.get('label', {}).get('@value', '')]. *)
Definition label_value (syn : json) : json :=
  match syn with
  | JObj s =>
      match get_default s "label" (JObj []) with
      | JObj l => get_default l "@value" (JStr "")
      | _ => JStr ""
      end
  | _ => JStr ""
  end.

(** Every byte of the string is an ASCII character. *)
Definition ascii_only (s : string) : bool :=
  forallb (fun c => Nat.ltb (nat_of_ascii c) 128) (list_ascii_of_string s).

(** The short identifier of a one-character string. *)
Definition char_uid (c : ascii) : string :=
  if Ascii.eqb c "/" then EmptyString else String c EmptyString.

(** A node of the hierarchy with another [parents] list. *)
Definition with_parents (d : HierarchyNode) (parents : list string)
  : HierarchyNode :=
  {| h_title := h_title d; h_def := h_def d; h_synonyms := h_synonyms d;
     h_parents := parents; h_children := h_children d |}.

(** The attribute dictionary that [build] gives the node of a key. *)
Definition node_attrs (d : HierarchyNode) : list (string * json) :=
  [("title", h_title d); ("definition", h_def d);
   ("synonyms", h_synonyms d)].

(** The node identifiers in the order [build] mentions them: each key,
    followed by its children. *)
Definition node_mentions (h : list (string * HierarchyNode)) : list string :=
  flat_map (fun kv => fst kv :: h_children (snd kv)) h.

(** Every attribute dictionary of the graph is empty or that of a key. *)
Definition attrs_shaped (g : DiGraph.t) : Prop :=
  forall n, GraphSpec.attrs g n = []
            \/ exists d, GraphSpec.attrs g n = node_attrs d.

(** The assignments [Data[u] = node] of a run of [build], in order. *)
Definition store_all (us : list (string * HierarchyNode))
  (D : list (string * HierarchyNode)) : list (string * HierarchyNode) :=
  fold_left (fun D un => dict_set String.eqb D (fst un) (snd un)) us D.

(** What a key is bound to after these assignments, given what it was
    bound to before. *)
Definition last_bound (k : string) (us : list (string * HierarchyNode))
  (o : option HierarchyNode) : option HierarchyNode :=
  fold_left (fun acc un => if String.eqb (fst un) k then Some (snd un)
                           else acc) us o.

(** A raw entry that every stage of the pipeline accepts: of the
    expected shape, with ['parent'] and ['child'] each absent, empty or a
    list of strings, and ['@id'] absent, empty or a string. *)
Definition is_str (v : json) : bool :=
  match v with JStr _ => true | _ => false end.

Definition refs_ok (d : list (string * json)) (key : string) : bool :=
  match dict_get String.eqb d key with
  | None => true
  | Some (JArr l) => forallb is_str l
  | Some v => negb (truthy v)
  end.

Definition id_str_ok (d : list (string * json)) : bool :=
  match dict_get String.eqb d "@id" with
  | None => true
  | Some (JStr _) => true
  | Some v => negb (truthy v)
  end.

Definition pipeline_ready (v : json) : bool :=
  well_shaped v
  && match v with
     | JObj d => refs_ok d "parent" && refs_ok d "child" && id_str_ok d
     | _ => false
     end.

(** * Properties *)

Unset Implicit Arguments.

(** ** Short identifiers *)

Lemma rsplit_last_none (s : string) :
  no_slash s = true -> rsplit_last s = None.
Proof.
  induction s as [|c r IH]; simpl; [reflexivity|].
  intros H. apply andb_true_iff in H as [Hc Hr].
  rewrite (IH Hr). destruct (Ascii.eqb c "/"); [discriminate|reflexivity].
Qed.

Lemma rsplit_last_none_inv (s : string) :
  rsplit_last s = None -> no_slash s = true.
Proof.
  induction s as [|c r IH]; simpl; [reflexivity|].
  destruct (rsplit_last r) as [[h t]|]; [discriminate|].
  destruct (Ascii.eqb c "/"); [discriminate|].
  intros _. simpl. apply IH. reflexivity.
Qed.

Lemma rsplit_last_app (a b : string) :
  no_slash b = true -> rsplit_last (a ++ "/" ++ b)%string = Some (a, b).
Proof.
  intros Hb. induction a as [|c r IH]; simpl in *.
  - rewrite (rsplit_last_none _ Hb). reflexivity.
  - rewrite IH. reflexivity.
Qed.

Lemma rsplit_last_some (s h t : string) :
  rsplit_last s = Some (h, t) ->
  s = (h ++ "/" ++ t)%string /\ no_slash t = true.
Proof.
  revert h t. induction s as [|c r IH]; simpl; intros h t H; [discriminate|].
  destruct (rsplit_last r) as [[h' t']|] eqn:E.
  - inversion H; subst. destruct (IH _ _ eq_refl) as [-> Ht].
    split; [reflexivity|exact Ht].
  - destruct (Ascii.eqb c "/") eqn:Ec; [|discriminate].
    inversion H; subst. apply Ascii.eqb_eq in Ec. subst c.
    split; [reflexivity|]. apply rsplit_last_none_inv, E.
Qed.

Lemma extract_uid_no_slash (s : string) :
  no_slash s = true -> extract_uid s = s.
Proof.
  intros H. unfold extract_uid, rsplit1.
  rewrite (rsplit_last_none _ H). reflexivity.
Qed.

Lemma extract_uid_after_last (a b : string) :
  no_slash b = true -> extract_uid (a ++ "/" ++ b)%string = b.
Proof.
  intros H. unfold extract_uid, rsplit1.
  rewrite (rsplit_last_app _ _ H). reflexivity.
Qed.

Lemma extract_uid_cases (s : string) :
  (no_slash s = true /\ extract_uid s = s)
  \/ (exists a, s = (a ++ "/" ++ extract_uid s)%string
                /\ no_slash (extract_uid s) = true).
Proof.
  unfold extract_uid, rsplit1.
  destruct (rsplit_last s) as [[h t]|] eqn:E.
  - right. destruct (rsplit_last_some _ _ _ E) as [Hs Ht].
    exists h. simpl. split; assumption.
  - left. split; [|reflexivity]. apply rsplit_last_none_inv, E.
Qed.

(** C7: [extract_uid] returns what follows the last ['/'] of its input,
    and the whole input when it holds no ['/']; so [extract_uid "X"] is
    ["X"], [extract_uid "http://a/b/c"] is ["c"], and applying it twice is
    the same as applying it once. *)
Theorem extract_uid_last_segment :
  (forall s, no_slash s = true -> extract_uid s = s)
  /\ (forall a b, no_slash b = true ->
                  extract_uid (a ++ "/" ++ b)%string = b)
  /\ (forall s, no_slash (extract_uid s) = true)
  /\ extract_uid "X" = "X"
  /\ extract_uid "http://a/b/c" = "c"
  /\ (forall s, extract_uid (extract_uid s) = extract_uid s).
Proof.
  assert (Hns : forall s, no_slash (extract_uid s) = true).
  { intros s. destruct (extract_uid_cases s) as [[H E]|[a [_ H]]].
    - rewrite E. exact H.
    - exact H. }
  repeat split.
  - exact extract_uid_no_slash.
  - exact extract_uid_after_last.
  - exact Hns.
  - intros s. apply extract_uid_no_slash, Hns.
Qed.

Lemma extract_uid_last_segment_witness :
  extract_uid "A" = "A" /\ extract_uid ("http://x" ++ "/" ++ "A")%string = "A".
Proof.
  split.
  - apply (proj1 extract_uid_last_segment). reflexivity.
  - apply (proj1 (proj2 extract_uid_last_segment)). reflexivity.
Defined.

(** ** Loops and dictionaries *)

Lemma bind_ok {A B : Type} (m : result A) (f : A -> result B) (b : B) :
  bind m f = Ok b -> exists a, m = Ok a /\ f a = Ok b.
Proof.
  destruct m as [a|e]; simpl; intros H; [|discriminate H].
  exists a. split; [reflexivity|exact H].
Qed.

Lemma for_each_cons {A S : Type} (body : S -> A -> result S)
  (x : A) (xs : list A) (s : S) :
  for_each body (x :: xs) s = (s' <- body s x ;; for_each body xs s').
Proof. reflexivity. Qed.

Lemma for_each_app {A S : Type} (body : S -> A -> result S)
  (xs ys : list A) (s : S) :
  for_each body (xs ++ ys) s = (s' <- for_each body xs s ;; for_each body ys s').
Proof.
  revert s. induction xs as [|x xs IH]; intros s; simpl; [reflexivity|].
  destruct (body s x); simpl; [apply IH|reflexivity].
Qed.

(** A property that every successful turn preserves holds at the end. *)
Lemma for_each_invariant {A S : Type} (body : S -> A -> result S)
  (I : S -> Prop) (xs : list A) :
  (forall s x s', In x xs -> I s -> body s x = Ok s' -> I s') ->
  forall s s', I s -> for_each body xs s = Ok s' -> I s'.
Proof.
  induction xs as [|x xs IH]; intros Hstep s s' Hs H; simpl in H.
  - inversion H; subst; exact Hs.
  - destruct (body s x) as [s1|e] eqn:E; simpl in H; [|discriminate].
    apply (IH (fun s0 x0 s0' Hin => Hstep s0 x0 s0' (or_intror Hin)) s1 s').
    + apply (Hstep s x s1); [left; reflexivity|exact Hs|exact E].
    + exact H.
Qed.

Section DictFacts.
Variables (K V : Type) (eqb : K -> K -> bool).

Lemma dict_get_set_same (d : list (K * V)) (k : K) (v : V) :
  eqb k k = true -> dict_get eqb (dict_set eqb d k v) k = Some v.
Proof.
  intros Hk. induction d as [|[k' v'] d IH]; simpl.
  - rewrite Hk. reflexivity.
  - destruct (eqb k' k) eqn:E; simpl; rewrite E; [reflexivity|exact IH].
Qed.

Lemma dict_get_set_other (d : list (K * V)) (k k0 : K) (v : V) :
  eqb k k0 = false ->
  (forall k', eqb k' k = true -> eqb k' k0 = true -> False) ->
  dict_get eqb (dict_set eqb d k v) k0 = dict_get eqb d k0.
Proof.
  intros Hk Hx. induction d as [|[k' v'] d IH]; simpl.
  - rewrite Hk. reflexivity.
  - destruct (eqb k' k) eqn:E; simpl.
    + destruct (eqb k' k0) eqn:E0; [|reflexivity].
      exfalso. exact (Hx k' E E0).
    + destruct (eqb k' k0); [reflexivity|exact IH].
Qed.

Lemma dict_mem_set_mono (d : list (K * V)) (k k0 : K) (v : V) :
  dict_mem eqb d k0 = true -> dict_mem eqb (dict_set eqb d k v) k0 = true.
Proof.
  unfold dict_mem. induction d as [|[k' v'] d IH]; simpl; [discriminate|].
  destruct (eqb k' k) eqn:E; simpl.
  - destruct (eqb k' k0); [reflexivity|]. intros H; exact H.
  - destruct (eqb k' k0); [reflexivity|exact IH].
Qed.

Lemma dict_mem_In (d : list (K * V)) (k : K) :
  dict_mem eqb d k = true ->
  exists k' v, In (k', v) d /\ eqb k' k = true.
Proof.
  unfold dict_mem. induction d as [|[k' v'] d IH]; simpl; [discriminate|].
  destruct (eqb k' k) eqn:E.
  - intros _. exists k', v'. split; [left; reflexivity|exact E].
  - intros H. destruct (IH H) as [k1 [v1 [Hin He]]].
    exists k1, v1. split; [right; exact Hin|exact He].
Qed.

(** The entries after [d[k] = v]: the old ones, or [v] under [k] or
    under the equal key that was there. *)
Lemma In_dict_set (d : list (K * V)) (k key : K) (v x : V) :
  In (key, x) (dict_set eqb d k v) ->
  In (key, x) d \/ (x = v /\ (key = k \/ eqb key k = true)).
Proof.
  induction d as [|[k' v'] d IH]; simpl.
  - intros [H|[]]. inversion H; subst. right. split; [reflexivity|left; reflexivity].
  - destruct (eqb k' k) eqn:E; simpl.
    + intros [H|H].
      * inversion H; subst. right. split; [reflexivity|right; exact E].
      * left. right. exact H.
    + intros [H|H].
      * left. left. exact H.
      * destruct (IH H) as [H'|H']; [left; right; exact H'|right; exact H'].
Qed.

Lemma dict_keys_set (d : list (K * V)) (k : K) (v : V) :
  dict_keys (dict_set eqb d k v)
  = if dict_mem eqb d k then dict_keys d else dict_keys d ++ [k].
Proof.
  unfold dict_keys, dict_mem. induction d as [|[k' v'] d IH]; simpl.
  - reflexivity.
  - destruct (eqb k' k) eqn:E; simpl; [reflexivity|].
    rewrite IH. destruct (dict_get eqb d k); reflexivity.
Qed.
End DictFacts.

Lemma string_get_set_same {V : Type} (d : list (string * V)) k v :
  dict_get String.eqb (dict_set String.eqb d k v) k = Some v.
Proof. apply dict_get_set_same, String.eqb_refl. Qed.

Lemma string_get_set_other {V : Type} (d : list (string * V)) k k0 v :
  k <> k0 ->
  dict_get String.eqb (dict_set String.eqb d k v) k0 = dict_get String.eqb d k0.
Proof.
  intros H. apply dict_get_set_other.
  - apply String.eqb_neq, H.
  - intros k' H1 H2. apply String.eqb_eq in H1, H2. congruence.
Qed.

Lemma string_get_In {V : Type} (d : list (string * V)) k :
  In k (dict_keys d) -> exists v, dict_get String.eqb d k = Some v.
Proof.
  unfold dict_keys. induction d as [|[k' v'] d IH]; simpl; [intros []|].
  intros [H|H].
  - subst. rewrite String.eqb_refl. eexists; reflexivity.
  - destruct (String.eqb k' k); [eexists; reflexivity|exact (IH H)].
Qed.

Lemma string_mem_In {V : Type} (d : list (string * V)) k :
  dict_mem String.eqb d k = true <-> In k (dict_keys d).
Proof.
  split.
  - intros H. destruct (dict_mem_In _ _ _ _ _ H) as [k1 [v [Hin He]]].
    apply String.eqb_eq in He. subst. unfold dict_keys.
    apply (in_map fst) in Hin. exact Hin.
  - intros H. unfold dict_mem. destruct (string_get_In _ _ H) as [v ->].
    reflexivity.
Qed.

(** ** The scenario *)

(** C1, as written: the two entries of the scenario carry no ['@id'], so
    [process] drops both and every later stage works on nothing. *)
Lemma scenario_as_written_is_dropped :
  run_pipeline scenario_raw "Root"
  = Ok {| out_normalized := [];
          out_hierarchy := [];
          out_graph := Some DiGraph.empty;
          out_children := JObj [];
          out_descendants := JObj [] |}.
Proof. reflexivity. Qed.

(** C1, amended: when each entry of the scenario carries its key as
    ['@id'], the pipeline yields normalized records keyed ["http://x/A"]
    and ["http://x/B"], a hierarchy keyed ["A"] (children [["B"]]) and
    ["B"] (parents [["A"]]), a graph with the edge from ["A"] to ["B"],
    the stated children of ["Root"], and one direct child and one
    descendant of ["Root"]. *)
Theorem scenario_with_ids :
  run_pipeline scenario_raw_with_ids "Root"
  = Ok {| out_normalized :=
            [(JStr "http://x/A",
              {| n_id := JStr "http://x/A"; n_parent := JStr "";
                 n_child := JArr [JStr "http://x/B"];
                 n_title := JStr "Root"; n_def := JStr "";
                 n_synonyms := JArr [] |});
             (JStr "http://x/B",
              {| n_id := JStr "http://x/B";
                 n_parent := JArr [JStr "http://x/A"]; n_child := JStr "";
                 n_title := JStr "Leaf"; n_def := JStr "";
                 n_synonyms := JArr [] |})];
          out_hierarchy :=
            [("A", {| h_title := JStr "Root"; h_def := JStr "";
                      h_synonyms := JArr []; h_parents := [];
                      h_children := ["B"] |});
             ("B", {| h_title := JStr "Leaf"; h_def := JStr "";
                      h_synonyms := JArr []; h_parents := ["A"];
                      h_children := [] |})];
          out_graph :=
            Some {| DiGraph.node_ :=
                      [("A", [("title", JStr "Root"); ("definition", JStr "");
                              ("synonyms", JArr [])]);
                       ("B", [("title", JStr "Leaf"); ("definition", JStr "");
                              ("synonyms", JArr [])])];
                    DiGraph.succ_ := [("A", ["B"]); ("B", [])] |};
          out_children :=
            JObj [("parent_id", JStr "A"); ("parent_title", JStr "Root");
                  ("children",
                   JArr [JObj [("id", JStr "B"); ("title", JStr "Leaf");
                               ("definition", JStr "");
                               ("synonyms", JArr [])]])];
          out_descendants :=
            JObj [("node_id", JStr "A"); ("title", JStr "Root");
                  ("direct_children", JArr [JStr "B"]);
                  ("all_descendants", JArr [JStr "B"]);
                  ("direct_children_count", JNum 1);
                  ("total_descendants_count", JNum 1)] |}.
Proof. reflexivity. Qed.

(** ** Queries before [build] *)

(** C4: on a builder whose [build] has not run, both queries raise the
    error "Graph not built. Call build() first." for every target title;
    neither returns a result. *)
Theorem query_before_build_raises (h : list (string * HierarchyNode))
  (target_title : string) :
  ICD11GraphBuilder.get_children_with_info
    (ICD11GraphBuilder.init h) target_title
  = Err (ValueError "Graph not built. Call build() first.")
  /\ ICD11GraphBuilder.get_all_descendants_by_title
       (ICD11GraphBuilder.init h) target_title
     = Err (ValueError "Graph not built. Call build() first.").
Proof. split; reflexivity. Qed.

(** ** Parents and children of the hierarchy *)

Lemma extract_uids_list (refs : list string) :
  map_result ICD11HierarchyBuilder.extract_uid_val (map JStr refs)
  = Ok (map extract_uid refs).
Proof.
  induction refs as [|x refs IH]; simpl; [reflexivity|].
  rewrite IH. reflexivity.
Qed.

Lemma extract_uids_refs (field : json) (refs : list string) :
  refs_field field refs ->
  ICD11HierarchyBuilder.extract_uids field = Ok (map extract_uid refs).
Proof.
  intros [l|v Hv]; unfold ICD11HierarchyBuilder.extract_uids.
  - destruct l as [|x l]; [reflexivity|].
    change (truthy (JArr (map JStr (x :: l)))) with true. cbv iota.
    change (iterate (JArr (map JStr (x :: l)))) with (Ok (map JStr (x :: l))).
    apply extract_uids_list.
  - rewrite Hv. reflexivity.
Qed.

Lemma build_step_data (st st' : ICD11HierarchyBuilder.state)
  (k : json) (v : NormalizedRecord) :
  ICD11HierarchyBuilder.build_step st (k, v) = Ok st' ->
  exists s node,
    k = JStr s /\ ICD11HierarchyBuilder.node_of v = Ok node
    /\ ICD11HierarchyBuilder.Data st'
       = dict_set String.eqb (ICD11HierarchyBuilder.Data st)
           (extract_uid s) node.
Proof.
  unfold ICD11HierarchyBuilder.build_step, ICD11HierarchyBuilder.extract_uid_val.
  destruct k; simpl; try discriminate.
  destruct (ICD11HierarchyBuilder.node_of v) as [node|e]; simpl; [|discriminate].
  intros H. inversion H; subst; simpl. eauto.
Qed.

(** Later entries with other short identifiers leave a stored node alone. *)
Lemma build_from_keeps (after : list (json * NormalizedRecord)) (uid : string) :
  (forall k' v', In (JStr k', v') after -> extract_uid k' <> uid) ->
  forall st st',
    ICD11HierarchyBuilder.build_from st after = Ok st' ->
    dict_get String.eqb (ICD11HierarchyBuilder.Data st') uid
    = dict_get String.eqb (ICD11HierarchyBuilder.Data st) uid.
Proof.
  unfold ICD11HierarchyBuilder.build_from.
  induction after as [|[k v] after IH]; intros Hne st st' H.
  - inversion H; reflexivity.
  - rewrite for_each_cons in H.
    destruct (ICD11HierarchyBuilder.build_step st (k, v)) as [st1|e] eqn:E;
      simpl in H; [|discriminate H].
    destruct (build_step_data _ _ _ _ E) as [s [node [-> [_ HD]]]].
    rewrite (IH (fun k' v' Hin => Hne k' v' (or_intror Hin)) st1 st' H).
    rewrite HD. apply string_get_set_other.
    apply (Hne s v). left; reflexivity.
Qed.

(** C2, as written: a [parent] field that is one reference string is
    iterated character by character, so the stored parents are the
    characters of the reference and not its short identifier. *)
Lemma single_reference_is_split_into_characters :
  ICD11HierarchyBuilder.build
    [(JStr "http://x/B",
      {| n_id := JStr "http://x/B"; n_parent := JStr "http://x/A";
         n_child := JStr ""; n_title := JStr "Leaf"; n_def := JStr "";
         n_synonyms := JArr [] |})]
  = Ok [("B", {| h_title := JStr "Leaf"; h_def := JStr "";
                 h_synonyms := JArr [];
                 h_parents := ["h"; "t"; "t"; "p"; ":"; ""; ""; "x"; ""; "A"];
                 h_children := [] |})].
Proof. reflexivity. Qed.

(** C2, amended: for a NormalizedRecord whose [parent] and [child] fields
    are each a list of reference strings or absent/empty, the node of the
    hierarchy has as [parents] and [children] the short identifiers of
    the references, in the order of the field, and the empty sequence
    for an absent or empty field; [build] stores that node under the
    short identifier of the record's key, where it stays unless a later
    key has the same short identifier. *)
Theorem hierarchy_parents_children (v : NormalizedRecord)
  (parents children : list string) :
  refs_field (n_parent v) parents ->
  refs_field (n_child v) children ->
  let node := {| h_title := n_title v; h_def := n_def v;
                 h_synonyms := n_synonyms v;
                 h_parents := map extract_uid parents;
                 h_children := map extract_uid children |} in
  ICD11HierarchyBuilder.node_of v = Ok node
  /\ forall before k after Data,
       ICD11HierarchyBuilder.build (before ++ (JStr k, v) :: after) = Ok Data ->
       (forall k' v', In (JStr k', v') after ->
                      extract_uid k' <> extract_uid k) ->
       dict_get String.eqb Data (extract_uid k) = Some node.
Proof.
  intros Hp Hc node.
  assert (Hnode : ICD11HierarchyBuilder.node_of v = Ok node).
  { unfold ICD11HierarchyBuilder.node_of.
    rewrite (extract_uids_refs _ _ Hp), (extract_uids_refs _ _ Hc).
    reflexivity. }
  split; [exact Hnode|].
  intros before k after Data Hb Hne.
  apply bind_ok in Hb as [st2 [Hb HData]].
  inversion HData; subst Data.
  unfold ICD11HierarchyBuilder.build_from in Hb.
  rewrite for_each_app in Hb. apply bind_ok in Hb as [st0 [_ Hb]].
  rewrite for_each_cons in Hb. apply bind_ok in Hb as [st1 [E1 E2]].
  rewrite (build_from_keeps after (extract_uid k) Hne st1 st2 E2).
  destruct (build_step_data _ _ _ _ E1) as [s [node' [Hk [Hn HD]]]].
  inversion Hk; subst s. rewrite Hnode in Hn. inversion Hn; subst node'.
  rewrite HD. apply string_get_set_same.
Qed.

Lemma hierarchy_parents_children_witness :
  dict_get String.eqb
    [("B", {| h_title := JStr "Leaf"; h_def := JStr "";
              h_synonyms := JArr []; h_parents := ["A"];
              h_children := [] |})] "B"
  = Some {| h_title := JStr "Leaf"; h_def := JStr "";
            h_synonyms := JArr []; h_parents := ["A"];
            h_children := [] |}.
Proof.
  apply (proj2 (hierarchy_parents_children
                  {| n_id := JStr "http://x/B";
                     n_parent := JArr [JStr "http://x/A"];
                     n_child := JStr ""; n_title := JStr "Leaf";
                     n_def := JStr ""; n_synonyms := JArr [] |}
                  ["http://x/A"] []
                  (refs_list ["http://x/A"])
                  (refs_empty (JStr "") eq_refl))
               [] "http://x/B" []).
  - reflexivity.
  - intros k' v' [].
Defined.

(** ** Normalisation *)

Lemma get_obj (d : list (string * json)) (key : string) (default : json) :
  get (JObj d) key default = Ok (get_default d key default).
Proof.
  unfold get, get_default. destruct (dict_get String.eqb d key); reflexivity.
Qed.

Lemma get_ok (obj : json) (key : string) (default v : json) :
  get obj key default = Ok v ->
  exists d, obj = JObj d /\ v = get_default d key default.
Proof.
  destruct obj; simpl; try discriminate.
  intros H. eexists. split; [reflexivity|].
  unfold get_default. destruct (dict_get String.eqb l key); congruence.
Qed.

Lemma py_key_eqb_refl (a : json) :
  hashable a = true -> py_key_eqb a a = true.
Proof.
  destruct a; simpl; try discriminate; intros _.
  - reflexivity.
  - apply Bool.eqb_reflx.
  - apply Z.eqb_refl.
  - apply String.eqb_refl.
Qed.

Lemma py_key_eqb_str (key : json) (s : string) :
  py_key_eqb key (JStr s) = true -> key = JStr s.
Proof.
  destruct key; simpl; try discriminate.
  intros H. apply String.eqb_eq in H. congruence.
Qed.

(** Equal keys are both truthy or both falsy. *)
Lemma py_key_eqb_truthy (a b : json) :
  py_key_eqb a b = true -> truthy a = truthy b.
Proof.
  destruct a as [|x|x|x|x|x], b as [|y|y|y|y|y]; cbn [py_key_eqb truthy];
    try discriminate; try reflexivity.
  - intros H. apply Bool.eqb_prop in H. exact H.
  - intros H. apply Z.eqb_eq in H. subst y. destruct x; reflexivity.
  - intros H. apply Z.eqb_eq in H. subst x. destruct y; reflexivity.
  - intros H. apply Z.eqb_eq in H. congruence.
  - intros H. apply String.eqb_eq in H. congruence.
Qed.

Lemma extract_values_id (v : json) (r : NormalizedRecord) :
  ICD11Processor.extract_values v = Ok r -> n_id r = canonical_id v.
Proof.
  unfold ICD11Processor.extract_values. intros H.
  apply bind_ok in H as [id [Hid H]].
  apply get_ok in Hid as [d [-> ->]].
  repeat (apply bind_ok in H as [? [_ H]]).
  inversion H; subst. reflexivity.
Qed.

Lemma process_step_ok (out out' : list (json * NormalizedRecord))
  (k : string) (v : json) :
  ICD11Processor.process_step out (k, v) = Ok out' ->
  exists r,
    ICD11Processor.extract_values v = Ok r
    /\ ((truthy (n_id r) = false /\ out' = out)
        \/ (truthy (n_id r) = true /\ hashable (n_id r) = true
            /\ out' = dict_set py_key_eqb out (n_id r) r)).
Proof.
  unfold ICD11Processor.process_step. intros H.
  apply bind_ok in H as [r [Hr H]]. exists r. split; [exact Hr|].
  destruct (truthy (n_id r)).
  - destruct (hashable (n_id r)); [|discriminate H].
    inversion H. right. auto.
  - inversion H. left. auto.
Qed.

(** C3, as written: an entry stored under the raw key ["K1"] whose
    ['@id'] is ["K2"] is normalised to a record whose id is ["K2"], keyed
    ["K2"]: the raw key is not copied. *)
Lemma id_is_not_the_raw_key :
  ICD11Processor.process [("K1", JObj [("@id", JStr "K2")])]
  = Ok [(JStr "K2",
         {| n_id := JStr "K2"; n_parent := JStr ""; n_child := JStr "";
            n_title := JStr ""; n_def := JStr ""; n_synonyms := JArr [] |})].
Proof. reflexivity. Qed.

(** C3, amended: every record of the normalized output comes from an
    entry of the raw input, its [id] field is the ['@id'] of that entry,
    and the record is stored under a key equal to its [id] (the very same
    string when the id is a string); the raw key is not consulted. *)
Theorem normalized_id_is_canonical_id (raw : list (string * json))
  (out : list (json * NormalizedRecord)) :
  ICD11Processor.process raw = Ok out ->
  forall key r, In (key, r) out ->
    py_key_eqb key (n_id r) = true
    /\ (forall s, n_id r = JStr s -> key = JStr s)
    /\ exists k v, In (k, v) raw
                   /\ ICD11Processor.extract_values v = Ok r
                   /\ n_id r = canonical_id v.
Proof.
  intros H.
  set (I := fun out : list (json * NormalizedRecord) =>
              forall key r, In (key, r) out ->
                py_key_eqb key (n_id r) = true
                /\ exists k v, In (k, v) raw
                               /\ ICD11Processor.extract_values v = Ok r).
  assert (HI : I out).
  { apply (for_each_invariant ICD11Processor.process_step I raw) with (s := []);
      [|intros key r []|exact H].
    intros s [k v] s' Hin Hs Hstep key r Hkr.
    destruct (process_step_ok _ _ _ _ Hstep) as [r0 [Hr0 [[_ ->]|[_ [Hh ->]]]]].
    - exact (Hs key r Hkr).
    - apply In_dict_set in Hkr as [Hold|[-> [->|He]]].
      + exact (Hs key r Hold).
      + split; [apply py_key_eqb_refl, Hh|]. exists k, v. auto.
      + split; [exact He|]. exists k, v. auto. }
  intros key r Hkr. destruct (HI key r Hkr) as [He [k [v [Hin Hv]]]].
  split; [exact He|]. split.
  - intros s Hs. rewrite Hs in He. apply py_key_eqb_str, He.
  - exists k, v. split; [exact Hin|]. split; [exact Hv|].
    apply extract_values_id, Hv.
Qed.

Lemma normalized_id_is_canonical_id_witness :
  py_key_eqb (JStr "K2") (JStr "K2") = true.
Proof.
  apply (proj1 (normalized_id_is_canonical_id
                  [("K1", JObj [("@id", JStr "K2")])]
                  [(JStr "K2",
                    {| n_id := JStr "K2"; n_parent := JStr "";
                       n_child := JStr ""; n_title := JStr "";
                       n_def := JStr ""; n_synonyms := JArr [] |})]
                  eq_refl (JStr "K2") _ (or_introl eq_refl))).
Defined.

Lemma field_obj_get (d : list (string * json)) (key : string) :
  field_obj d key = true ->
  exists o, get_default d key (JObj []) = JObj o
            /\ (dict_get String.eqb d key = None -> o = [])
            /\ (forall t, dict_get String.eqb d key = Some (JObj t) -> o = t).
Proof.
  unfold field_obj, get_default.
  destruct (dict_get String.eqb d key) as [v|].
  - destruct v; simpl; try discriminate. intros _.
    eexists. split; [reflexivity|]. split; [discriminate|].
    intros t H. inversion H. reflexivity.
  - intros _. exists []. split; [reflexivity|]. split; [reflexivity|].
    discriminate.
Qed.

Lemma synonym_values_total (l : list json) :
  forallb synonym_ok l = true ->
  exists values, ICD11Processor.synonym_values l = Ok values.
Proof.
  induction l as [|syn l IH]; simpl; intros H.
  - eexists; reflexivity.
  - apply andb_true_iff in H as [Hs Hl].
    destruct (IH Hl) as [values Hvalues].
    destruct syn; simpl in Hs; try discriminate Hs.
    destruct (field_obj_get _ _ Hs) as [o [Ho _]].
    rewrite !get_obj. cbn [bind]. rewrite Ho, !get_obj. cbn [bind].
    rewrite Hvalues. destruct (truthy _); eexists; reflexivity.
Qed.

Lemma synonyms_total (d : list (string * json)) :
  synonyms_ok d = true ->
  exists values,
    (let syns := get_default d "synonym" JNull in
     if truthy syns then
       items <- iterate syns ;; ICD11Processor.synonym_values items
     else Ok []) = Ok values
    /\ (dict_get String.eqb d "synonym" = None -> values = []).
Proof.
  unfold synonyms_ok, get_default.
  destruct (dict_get String.eqb d "synonym") as [v|]; cbv zeta.
  - destruct v as [|b|z|s|l|o]; intros H;
      try (apply negb_true_iff in H; rewrite H; eexists;
           split; [reflexivity|discriminate]).
    destruct l as [|x l]; [eexists; split; [reflexivity|discriminate]|].
    destruct (synonym_values_total _ H) as [values Hv].
    exists values. split; [exact Hv|discriminate].
  - intros _. exists []. split; reflexivity.
Qed.

(** On an entry of the expected shape [extract_values] raises nothing and
    applies its defaults. *)
Lemma extract_values_total (v : json) :
  well_shaped v = true ->
  exists r,
    ICD11Processor.extract_values v = Ok r
    /\ defaults_applied v r
    /\ (truthy (n_id r) = true -> hashable (n_id r) = true).
Proof.
  destruct v as [|b|z|s|l|d]; simpl; try discriminate. intros H.
  apply andb_true_iff in H as [H Hid].
  apply andb_true_iff in H as [H Hsyn].
  apply andb_true_iff in H as [Ht Hd].
  destruct (field_obj_get _ _ Ht) as [ot [Eot [Ht0 Ht1]]].
  destruct (field_obj_get _ _ Hd) as [od [Eod [Hd0 Hd1]]].
  destruct (synonyms_total _ Hsyn) as [values [Hv Hv0]]. cbv zeta in Hv.
  unfold ICD11Processor.extract_values.
  rewrite !get_obj. cbn [bind]. rewrite Eot, Eod, !get_obj. cbn [bind].
  rewrite Hv. cbn [bind].
  eexists. split; [reflexivity|]. split.
  - intros d' Hd'. inversion Hd'; subst d'. cbn [n_parent n_child n_title n_def n_synonyms].
    repeat split.
    + intros E. unfold get_default. rewrite E. reflexivity.
    + intros E. unfold get_default. rewrite E. reflexivity.
    + intros E. rewrite (Ht0 E). reflexivity.
    + intros t E. rewrite (Ht1 t E). reflexivity.
    + intros E. rewrite (Hd0 E). reflexivity.
    + intros t E. rewrite (Hd1 t E). reflexivity.
    + intros E. rewrite (Hv0 E). reflexivity.
    + eexists; reflexivity.
  - cbn [n_id]. unfold id_ok in Hid. unfold get_default.
    destruct (dict_get String.eqb d "@id") as [i|]; [|discriminate].
    intros Hi. rewrite Hi in Hid. exact Hid.
Qed.

Lemma process_from_total (raw : list (string * json)) :
  (forall k v, In (k, v) raw -> well_shaped v = true) ->
  forall acc,
    (forall key r, In (key, r) acc -> truthy key = true) ->
    exists out,
      for_each ICD11Processor.process_step raw acc = Ok out
      /\ (forall key r, In (key, r) out -> truthy key = true)
      /\ (forall key, dict_mem py_key_eqb acc key = true ->
                      dict_mem py_key_eqb out key = true)
      /\ (forall k v, In (k, v) raw -> truthy (canonical_id v) = true ->
                      dict_mem py_key_eqb out (canonical_id v) = true).
Proof.
  induction raw as [|[k v] raw IH]; intros Hws acc Hacc.
  - exists acc. repeat split; auto.
  - destruct (extract_values_total v (Hws k v (or_introl eq_refl)))
      as [r [Hr [_ Hh]]].
    pose proof (extract_values_id _ _ Hr) as Hid.
    assert (Hstep : exists acc1,
               ICD11Processor.process_step acc (k, v) = Ok acc1
               /\ (forall key r, In (key, r) acc1 -> truthy key = true)
               /\ (forall key, dict_mem py_key_eqb acc key = true ->
                               dict_mem py_key_eqb acc1 key = true)
               /\ (truthy (canonical_id v) = true ->
                   dict_mem py_key_eqb acc1 (canonical_id v) = true)).
    { unfold ICD11Processor.process_step. rewrite Hr. cbn [bind].
      rewrite Hid in *. destruct (truthy (canonical_id v)) eqn:Et.
      - rewrite (Hh eq_refl). eexists. split; [reflexivity|].
        split; [|split].
        + intros key r0 Hin.
          apply In_dict_set in Hin as [Hold|[_ [->|He]]].
          * exact (Hacc key r0 Hold).
          * exact Et.
          * rewrite (py_key_eqb_truthy _ _ He). exact Et.
        + intros key. apply dict_mem_set_mono.
        + intros _. unfold dict_mem.
          rewrite dict_get_set_same; [reflexivity|].
          apply py_key_eqb_refl, Hh. reflexivity.
      - exists acc. split; [reflexivity|]. split; [exact Hacc|].
        split; [auto|discriminate]. }
    destruct Hstep as [acc1 [Hs [Hk1 [Hm1 Hhead]]]].
    destruct (IH (fun k' v' Hin => Hws k' v' (or_intror Hin)) acc1 Hk1)
      as [out [Ho [Hko [Hmo Htail]]]].
    exists out. rewrite for_each_cons, Hs. cbn [bind].
    split; [exact Ho|]. split; [exact Hko|]. split; [auto|].
    intros k' v' [Heq|Hin] Ht.
    + inversion Heq; subst. auto.
    + exact (Htail k' v' Hin Ht).
Qed.

(** C6, as written: an entry whose ['title'] is a string rather than an
    object makes [process] raise, and an entry whose ['@id'] is present
    but empty is dropped. *)
Lemma malformed_entry_raises_and_empty_id_is_dropped :
  ICD11Processor.process
    [("k", JObj [("@id", JStr "k"); ("title", JStr "Root")])]
  = Err AttributeError
  /\ ICD11Processor.process [("k", JObj [("@id", JStr "")])] = Ok [].
Proof. split; reflexivity. Qed.

(** C6, amended: on a raw mapping whose entries have the expected shape
    (objects; ['title'], ['definition'] and each synonym's ['label'] an
    object when present; ['synonym'] a list of objects when not empty;
    ['@id'] hashable when not empty) normalisation raises no error, every
    missing sub-field defaults to the empty string or the empty sequence,
    and an entry's id is a key of the output if and only if its ['@id']
    is present and not empty (truthy). *)
Theorem normalisation_total_and_exclusion (raw : list (string * json)) :
  (forall k v, In (k, v) raw -> well_shaped v = true) ->
  exists out,
    ICD11Processor.process raw = Ok out
    /\ forall k v, In (k, v) raw ->
         exists r,
           ICD11Processor.extract_values v = Ok r
           /\ defaults_applied v r
           /\ n_id r = canonical_id v
           /\ dict_mem py_key_eqb out (canonical_id v)
              = truthy (canonical_id v).
Proof.
  intros Hws.
  destruct (process_from_total raw Hws [] (fun key r (H : In (key, r) []) =>
                                            match H with end))
    as [out [Ho [Hkeys [_ Hmem]]]].
  exists out. split; [exact Ho|].
  intros k v Hin.
  destruct (extract_values_total v (Hws k v Hin)) as [r [Hr [Hd _]]].
  exists r. split; [exact Hr|]. split; [exact Hd|].
  split; [apply extract_values_id, Hr|].
  destruct (truthy (canonical_id v)) eqn:Et.
  - exact (Hmem k v Hin Et).
  - destruct (dict_mem py_key_eqb out (canonical_id v)) eqn:Em; [|reflexivity].
    apply dict_mem_In in Em as [key [r' [Hin' He]]].
    rewrite <- (py_key_eqb_truthy _ _ He), (Hkeys key r' Hin') in Et.
    discriminate Et.
Qed.

Lemma normalisation_total_and_exclusion_witness :
  exists out,
    ICD11Processor.process [("k", JObj [("@id", JStr "k")]); ("e", JObj [])]
    = Ok out
    /\ forall k v,
         In (k, v) [("k", JObj [("@id", JStr "k")]); ("e", JObj [])] ->
         exists r,
           ICD11Processor.extract_values v = Ok r
           /\ defaults_applied v r
           /\ n_id r = canonical_id v
           /\ dict_mem py_key_eqb out (canonical_id v)
              = truthy (canonical_id v).
Proof.
  apply (normalisation_total_and_exclusion
           [("k", JObj [("@id", JStr "k")]); ("e", JObj [])]).
  intros k v [H|[H|[]]]; inversion H; reflexivity.
Defined.

(** ** The graph that [build] makes *)

Section GraphFacts.
Import DiGraph GraphSpec.

Lemma existsb_eqb_In (x : string) (l : list string) :
  existsb (String.eqb x) l = true <-> In x l.
Proof.
  rewrite existsb_exists. split.
  - intros [y [Hin He]]. apply String.eqb_eq in He. subst. exact Hin.
  - intros H. exists x. split; [exact H|apply String.eqb_refl].
Qed.

Lemma dict_mem_keys {V W : Type} (d : list (string * V))
  (d' : list (string * W)) (k : string) :
  map fst d = map fst d' ->
  dict_mem String.eqb d k = dict_mem String.eqb d' k.
Proof.
  intros H.
  destruct (dict_mem String.eqb d k) eqn:E, (dict_mem String.eqb d' k) eqn:E';
    try reflexivity.
  - apply string_mem_In in E. unfold dict_keys in E. rewrite H in E.
    apply string_mem_In in E. congruence.
  - apply string_mem_In in E'. unfold dict_keys in E'. rewrite <- H in E'.
    apply string_mem_In in E'. congruence.
Qed.

Lemma has_node_nodes (g : t) (n : string) :
  wf g -> has_node g n = true <-> In n (nodes g).
Proof.
  intros [Hk _]. unfold has_node, nodes.
  rewrite <- (dict_mem_keys (node_ g) (succ_ g) n Hk).
  apply string_mem_In.
Qed.

Lemma node_view_attrs (g : t) (n : string) :
  In n (nodes g) -> node_view g n = Ok (attrs g n).
Proof.
  intros H. unfold node_view, attrs.
  destruct (string_get_In _ _ H) as [a ->]. reflexivity.
Qed.

Lemma ensure_node_adj (g : t) (n m : string) :
  adj (ensure_node g n) m = adj g m.
Proof.
  unfold ensure_node. destruct (has_node g n) eqn:E; [reflexivity|].
  unfold adj; simpl. destruct (String.eqb n m) eqn:Enm.
  - apply String.eqb_eq in Enm. subst m. rewrite string_get_set_same.
    unfold has_node, dict_mem in E.
    destruct (dict_get String.eqb (succ_ g) n); [discriminate E|reflexivity].
  - rewrite string_get_set_other; [reflexivity|].
    apply String.eqb_neq, Enm.
Qed.

Lemma ensure_node_attrs (g : t) (n m : string) :
  wf g -> attrs (ensure_node g n) m = attrs g m.
Proof.
  intros Hwf. unfold ensure_node. destruct (has_node g n) eqn:E; [reflexivity|].
  unfold attrs; simpl. destruct (String.eqb n m) eqn:Enm.
  - apply String.eqb_eq in Enm. subst m. rewrite string_get_set_same.
    destruct (dict_get String.eqb (node_ g) n) eqn:Eg; [|reflexivity].
    assert (Hin : has_node g n = true).
    { apply has_node_nodes; [exact Hwf|]. apply string_mem_In.
      unfold dict_mem. rewrite Eg. reflexivity. }
    congruence.
  - rewrite string_get_set_other; [reflexivity|].
    apply String.eqb_neq, Enm.
Qed.

Lemma ensure_node_nodes (g : t) (n : string) :
  wf g ->
  nodes (ensure_node g n) = if has_node g n then nodes g else nodes g ++ [n].
Proof.
  intros Hwf. unfold ensure_node. destruct (has_node g n) eqn:E; [reflexivity|].
  unfold nodes; simpl. rewrite dict_keys_set.
  destruct Hwf as [Hk _].
  rewrite (dict_mem_keys (node_ g) (succ_ g) n Hk).
  unfold has_node in E. rewrite E. reflexivity.
Qed.

Lemma ensure_node_incl (g : t) (n x : string) :
  wf g -> In x (nodes g) -> In x (nodes (ensure_node g n)).
Proof.
  intros Hwf H. rewrite (ensure_node_nodes g n Hwf).
  destruct (has_node g n); [exact H|apply in_or_app; left; exact H].
Qed.

Lemma ensure_node_In (g : t) (n : string) :
  wf g -> In n (nodes (ensure_node g n)).
Proof.
  intros Hwf. rewrite (ensure_node_nodes g n Hwf).
  destruct (has_node g n) eqn:E.
  - apply has_node_nodes; assumption.
  - apply in_or_app; right; left; reflexivity.
Qed.

Lemma ensure_node_wf (g : t) (n : string) : wf g -> wf (ensure_node g n).
Proof.
  intros Hwf. split.
  - unfold ensure_node. destruct (has_node g n) eqn:E; [apply Hwf|].
    simpl. fold (dict_keys (dict_set String.eqb (node_ g) n [])).
    fold (dict_keys (dict_set String.eqb (succ_ g) n [])).
    rewrite !dict_keys_set.
    destruct Hwf as [Hk _].
    rewrite (dict_mem_keys (node_ g) (succ_ g) n Hk).
    unfold dict_keys. rewrite Hk. reflexivity.
  - intros u v H. rewrite ensure_node_adj in H.
    apply ensure_node_incl; [exact Hwf|]. destruct Hwf as [_ He].
    exact (He u v H).
Qed.

Lemma empty_wf : wf empty.
Proof. split; [reflexivity|]. intros u v []. Qed.

End GraphFacts.

Section BuildFacts.
Import DiGraph GraphSpec.

Lemma add_node_adj (g : t) (n m : string) (a : list (string * json)) :
  adj (add_node g n a) m = adj g m.
Proof. exact (ensure_node_adj g n m). Qed.

Lemma add_node_nodes (g : t) (n : string) (a : list (string * json)) :
  wf g -> nodes (add_node g n a) = nodes (ensure_node g n).
Proof.
  intros Hwf. unfold add_node, nodes; simpl. rewrite dict_keys_set.
  assert (H : dict_mem String.eqb (node_ (ensure_node g n)) n = true).
  { apply string_mem_In. apply (ensure_node_In g n Hwf). }
  rewrite H. reflexivity.
Qed.

Lemma add_node_wf (g : t) (n : string) (a : list (string * json)) :
  wf g -> wf (add_node g n a).
Proof.
  intros Hwf. pose proof (ensure_node_wf g n Hwf) as [Hk He]. split.
  - pose proof (add_node_nodes g n a Hwf) as Hn. unfold nodes, dict_keys in Hn.
    rewrite Hn. exact Hk.
  - intros u v H. rewrite (add_node_nodes g n a Hwf).
    rewrite add_node_adj, <- (ensure_node_adj g n) in H. exact (He u v H).
Qed.

Lemma add_node_attrs_other (g : t) (n m : string) (a : list (string * json)) :
  wf g -> n <> m -> attrs (add_node g n a) m = attrs g m.
Proof.
  intros Hwf Hne. unfold add_node, attrs at 1; simpl.
  rewrite string_get_set_other; [|exact Hne].
  exact (ensure_node_attrs g n m Hwf).
Qed.

Lemma In_adj_add (l : list string) (v x : string) :
  In x (adj_add l v) <-> In x l \/ x = v.
Proof.
  unfold adj_add. destruct (existsb (String.eqb v) l) eqn:E.
  - apply existsb_eqb_In in E. split; [auto|]. intros [H| ->]; assumption.
  - rewrite in_app_iff. simpl. split.
    + intros [H|[H|[]]]; auto.
    + intros [H|H]; auto.
Qed.

Lemma add_edge_adj (g : t) (u v m : string) :
  adj (add_edge g u v) m
  = if String.eqb u m then adj_add (adj g u) v else adj g m.
Proof.
  unfold add_edge, adj at 1; simpl. destruct (String.eqb u m) eqn:E.
  - apply String.eqb_eq in E. subst m. rewrite string_get_set_same.
    rewrite !ensure_node_adj. reflexivity.
  - rewrite string_get_set_other; [|apply String.eqb_neq, E].
    change (adj (ensure_node (ensure_node g u) v) m = adj g m).
    rewrite !ensure_node_adj. reflexivity.
Qed.

Lemma add_edge_nodes (g : t) (u v : string) :
  nodes (add_edge g u v) = nodes (ensure_node (ensure_node g u) v).
Proof. reflexivity. Qed.

Lemma add_edge_attrs (g : t) (u v m : string) :
  wf g -> attrs (add_edge g u v) m = attrs g m.
Proof.
  intros Hwf. change (attrs (ensure_node (ensure_node g u) v) m = attrs g m).
  rewrite ensure_node_attrs; [|apply ensure_node_wf, Hwf].
  apply ensure_node_attrs, Hwf.
Qed.

Lemma add_edge_incl (g : t) (u v x : string) :
  wf g -> In x (nodes g) -> In x (nodes (add_edge g u v)).
Proof.
  intros Hwf H. rewrite add_edge_nodes.
  apply ensure_node_incl; [apply ensure_node_wf, Hwf|].
  apply ensure_node_incl; assumption.
Qed.

Lemma add_edge_wf (g : t) (u v : string) : wf g -> wf (add_edge g u v).
Proof.
  intros Hwf.
  pose proof (ensure_node_wf _ u Hwf) as Hwf1.
  pose proof (ensure_node_wf _ v Hwf1) as Hwf2.
  assert (Hu : In u (nodes (ensure_node (ensure_node g u) v))).
  { apply ensure_node_incl; [exact Hwf1|]. apply ensure_node_In, Hwf. }
  split.
  - unfold add_edge; simpl.
    fold (dict_keys (dict_set String.eqb
                       (succ_ (ensure_node (ensure_node g u) v)) u
                       (adj_add (adj (ensure_node (ensure_node g u) v) u) v))).
    rewrite dict_keys_set.
    apply (has_node_nodes _ u Hwf2) in Hu. unfold has_node in Hu.
    rewrite Hu. apply Hwf2.
  - intros a b H. rewrite add_edge_nodes. rewrite add_edge_adj in H.
    destruct (String.eqb u a) eqn:E.
    + apply In_adj_add in H as [H| ->].
      * apply ensure_node_incl; [exact Hwf1|].
        apply ensure_node_incl; [exact Hwf|].
        destruct Hwf as [_ He]. exact (He u b H).
      * apply ensure_node_In, Hwf1.
    + apply ensure_node_incl; [exact Hwf1|].
      apply ensure_node_incl; [exact Hwf|].
      destruct Hwf as [_ He]. exact (He a b H).
Qed.

(** The edges of one node of the hierarchy. *)
Lemma add_edges_facts (u : string) (children : list string) :
  forall g, wf g ->
    let g' := fold_left (fun g c => add_edge g u c) children g in
    wf g'
    /\ (forall m, adj g' m = if String.eqb u m
                             then fold_left adj_add children (adj g u)
                             else adj g m)
    /\ (forall m, attrs g' m = attrs g m)
    /\ (forall x, In x (nodes g) -> In x (nodes g')).
Proof.
  induction children as [|c children IH]; intros g Hwf; simpl.
  - split; [exact Hwf|]. split; [|auto].
    intros m. destruct (String.eqb u m) eqn:E; [|reflexivity].
    apply String.eqb_eq in E. subst. reflexivity.
  - destruct (IH (add_edge g u c) (add_edge_wf g u c Hwf))
      as [Hwf' [Hadj [Hattrs Hincl]]].
    split; [exact Hwf'|]. split; [|split].
    + intros m. rewrite Hadj, !add_edge_adj, String.eqb_refl.
      destruct (String.eqb u m); reflexivity.
    + intros m. rewrite Hattrs. apply add_edge_attrs, Hwf.
    + intros x Hx. apply Hincl, add_edge_incl; assumption.
Qed.

Lemma build_node_facts (g : t) (k : string) (d : HierarchyNode) :
  wf g ->
  let g' := ICD11GraphBuilder.build_node g (k, d) in
  wf g'
  /\ (forall m, adj g' m = if String.eqb k m
                           then fold_left adj_add (h_children d) (adj g k)
                           else adj g m)
  /\ (forall m, k <> m -> attrs g' m = attrs g m)
  /\ (forall x, In x (nodes g) -> In x (nodes g')).
Proof.
  intros Hwf. unfold ICD11GraphBuilder.build_node.
  set (a := [("title", h_title d); ("definition", h_def d);
             ("synonyms", h_synonyms d)]).
  destruct (add_edges_facts k (h_children d) (add_node g k a)
              (add_node_wf g k a Hwf)) as [Hwf' [Hadj [Hattrs Hincl]]].
  split; [exact Hwf'|]. split; [|split].
  - intros m. rewrite Hadj, !add_node_adj. reflexivity.
  - intros m Hne. rewrite Hattrs. apply add_node_attrs_other; assumption.
  - intros x Hx. apply Hincl. rewrite add_node_nodes; [|exact Hwf].
    apply ensure_node_incl; assumption.
Qed.

Lemma build_from_facts (h : list (string * HierarchyNode)) :
  forall g, wf g ->
    let g' := fold_left ICD11GraphBuilder.build_node h g in
    wf g'
    /\ (forall m, adj g' m = fold_left adj_add (edge_targets h m) (adj g m))
    /\ (forall m, (forall d, ~ In (m, d) h) -> attrs g' m = attrs g m)
    /\ (forall x, In x (nodes g) -> In x (nodes g')).
Proof.
  induction h as [|[k d] h IH]; intros g Hwf; simpl.
  - split; [exact Hwf|]. repeat split; auto.
  - destruct (build_node_facts g k d Hwf) as [Hwf1 [Hadj1 [Hattrs1 Hincl1]]].
    destruct (IH _ Hwf1) as [Hwf' [Hadj [Hattrs Hincl]]].
    split; [exact Hwf'|]. split; [|split].
    + intros m. rewrite Hadj, Hadj1, fold_left_app.
      destruct (String.eqb k m) eqn:E; [|reflexivity].
      apply String.eqb_eq in E. subst. reflexivity.
    + intros m Hm. rewrite Hattrs.
      * apply Hattrs1. intros ->. apply (Hm d). left; reflexivity.
      * intros d' H. apply (Hm d'). right; exact H.
    + intros x Hx. apply Hincl, Hincl1, Hx.
Qed.

Lemma build_graph_wf (h : list (string * HierarchyNode)) :
  wf (ICD11GraphBuilder.build_graph h).
Proof. apply (build_from_facts h empty empty_wf). Qed.

(** The successors of a node are the targets of its [add_edge] calls,
    each at the place of its first call. *)
Lemma build_graph_adj (h : list (string * HierarchyNode)) (n : string) :
  adj (ICD11GraphBuilder.build_graph h) n
  = first_occurrences (edge_targets h n).
Proof.
  destruct (build_from_facts h empty empty_wf) as [_ [H _]]. apply H.
Qed.

(** A node that is never a key of the hierarchy has no attributes. *)
Lemma build_graph_bare (h : list (string * HierarchyNode)) (c : string) :
  (forall d, ~ In (c, d) h) -> attrs (ICD11GraphBuilder.build_graph h) c = [].
Proof.
  intros H. destruct (build_from_facts h empty empty_wf) as [_ [_ [Ha _]]].
  exact (Ha c H).
Qed.

End BuildFacts.

(** ** The title scan *)

Section ScanFacts.
Import DiGraph GraphSpec.
Variable found : t -> string -> json -> result json.
Variables (g : t) (target_title : string).

Lemma scan_step_eval (results : json) (n : string) :
  In n (nodes g) ->
  ICD11GraphBuilder.scan_step found g target_title results n
  = if matches g target_title n then found g n (node_title g n)
    else Ok results.
Proof.
  intros H. unfold ICD11GraphBuilder.scan_step.
  rewrite (node_view_attrs g n H). reflexivity.
Qed.

Lemma scan_no_match (l : list string) :
  incl l (nodes g) ->
  (forall n, In n l -> matches g target_title n = false) ->
  forall results,
    for_each (ICD11GraphBuilder.scan_step found g target_title) l results
    = Ok results.
Proof.
  induction l as [|n l IH]; intros Hincl Hno results; [reflexivity|].
  rewrite for_each_cons, scan_step_eval; [|apply Hincl; left; reflexivity].
  rewrite (Hno n (or_introl eq_refl)). cbn [bind].
  apply IH.
  - intros x Hx. apply Hincl. right; exact Hx.
  - intros x Hx. apply Hno. right; exact Hx.
Qed.

Lemma scan_prefix_ok (l : list string) :
  incl l (nodes g) ->
  (forall n, In n l -> exists r, found g n (node_title g n) = Ok r) ->
  forall results,
  exists results',
    for_each (ICD11GraphBuilder.scan_step found g target_title) l results
    = Ok results'.
Proof.
  induction l as [|n l IH]; intros Hincl Hok results.
  - exists results. reflexivity.
  - rewrite for_each_cons, scan_step_eval; [|apply Hincl; left; reflexivity].
    assert (Hl : incl l (nodes g)) by (intros x Hx; apply Hincl; right; exact Hx).
    assert (Hokl : forall n, In n l ->
                     exists r, found g n (node_title g n) = Ok r)
      by (intros x Hx; apply Hok; right; exact Hx).
    destruct (matches g target_title n).
    + destruct (Hok n (or_introl eq_refl)) as [r ->]. cbn [bind].
      apply IH; assumption.
    + cbn [bind]. apply IH; assumption.
Qed.

(** The scan returns what the last matching node yields. *)
Lemma scan_last (before after : list string) (n : string) :
  nodes g = before ++ n :: after ->
  (forall m, In m (nodes g) -> exists r, found g m (node_title g m) = Ok r) ->
  matches g target_title n = true ->
  (forall m, In m after -> matches g target_title m = false) ->
  forall results,
    for_each (ICD11GraphBuilder.scan_step found g target_title)
      (nodes g) results
    = found g n (node_title g n).
Proof.
  intros Hn Hok Hm Hafter results.
  assert (Hincl : incl (before ++ n :: after) (nodes g))
    by (rewrite <- Hn; apply incl_refl).
  rewrite Hn, for_each_app.
  destruct (scan_prefix_ok before) with (results := results) as [r1 ->].
  - intros x Hx. apply Hincl, in_or_app. left; exact Hx.
  - intros x Hx. apply Hok. rewrite Hn. apply in_or_app. left; exact Hx.
  - cbn [bind]. rewrite for_each_cons, scan_step_eval, Hm.
    + destruct (found g n (node_title g n)) as [r|e]; [|reflexivity].
      cbn [bind]. apply scan_no_match; [|exact Hafter].
      intros x Hx. apply Hincl, in_or_app. right; right; exact Hx.
    + apply Hincl, in_or_app. right; left; reflexivity.
Qed.
End ScanFacts.

Section QueryFacts.
Import DiGraph GraphSpec.

Lemma title_eqb_true (title : json) (target_title : string) :
  ICD11GraphBuilder.title_eqb title target_title = true ->
  title = JStr target_title.
Proof.
  destruct title; simpl; try discriminate.
  intros H. apply String.eqb_eq in H. congruence.
Qed.

Lemma children_info_ok (g : t) (l : list string) :
  incl l (nodes g) ->
  map_result (ICD11GraphBuilder.child_info g) l = Ok (map (child_entry g) l).
Proof.
  induction l as [|c l IH]; intros Hincl; [reflexivity|].
  simpl. unfold ICD11GraphBuilder.child_info at 1.
  rewrite (node_view_attrs g c); [|apply Hincl; left; reflexivity].
  cbn [bind]. rewrite IH; [reflexivity|].
  intros x Hx. apply Hincl. right; exact Hx.
Qed.

Lemma successors_ok (g : t) (n : string) :
  wf g -> In n (nodes g) -> successors g n = Ok (adj g n).
Proof.
  intros Hwf Hn. unfold successors.
  apply (has_node_nodes g n Hwf) in Hn. rewrite Hn. reflexivity.
Qed.

Lemma children_result_ok (g : t) (n : string) (title : json) :
  wf g -> In n (nodes g) ->
  ICD11GraphBuilder.children_result g n title
  = Ok (JObj [("parent_id", JStr n); ("parent_title", title);
              ("children", JArr (map (child_entry g) (adj g n)))]).
Proof.
  intros Hwf Hn. unfold ICD11GraphBuilder.children_result.
  rewrite (successors_ok g n Hwf Hn). cbn [bind].
  rewrite children_info_ok; [reflexivity|].
  intros x Hx. destruct Hwf as [_ He]. exact (He n x Hx).
Qed.

Lemma In_fold_adj_add (l acc : list string) (x : string) :
  In x (fold_left adj_add l acc) <-> In x acc \/ In x l.
Proof.
  revert acc. induction l as [|y l IH]; intros acc; simpl.
  - tauto.
  - rewrite IH, In_adj_add. intuition auto.
Qed.

Lemma In_edge_targets (h : list (string * HierarchyNode)) (p c : string)
  (d : HierarchyNode) :
  In (p, d) h -> In c (h_children d) -> In c (edge_targets h p).
Proof.
  intros Hp Hc. unfold edge_targets. apply in_flat_map.
  exists (p, d). split; [exact Hp|]. simpl.
  rewrite String.eqb_refl. exact Hc.
Qed.
End QueryFacts.

(** A scan that meets no matching node leaves [results] empty. *)
Lemma scans_without_match (self : ICD11GraphBuilder.t) (g : DiGraph.t)
  (target_title : string) :
  ICD11GraphBuilder.G self = Some g ->
  (forall n, In n (DiGraph.nodes g) ->
             GraphSpec.matches g target_title n = false) ->
  ICD11GraphBuilder.get_children_with_info self target_title = Ok (JObj [])
  /\ ICD11GraphBuilder.get_all_descendants_by_title self target_title
     = Ok (JObj []).
Proof.
  intros HG Hno.
  unfold ICD11GraphBuilder.get_children_with_info,
    ICD11GraphBuilder.get_all_descendants_by_title.
  rewrite HG. split; apply scan_no_match; auto using incl_refl.
Qed.

(** C5, as written: in the graph built from a hierarchy whose only key,
    ["A"] titled ["Root"], has the child ["B"] that is not a key, no
    node has a title attribute equal to the empty string (["B"] has no
    title attribute at all); yet both queries on the empty title return
    a mapping for ["B"], not the empty mapping. *)
Lemma empty_title_matches_bare_node :
  (forall n,
     In n (DiGraph.nodes
             (ICD11GraphBuilder.build_graph dangling_child_hierarchy)) ->
     GraphSpec.title_attribute
       (ICD11GraphBuilder.build_graph dangling_child_hierarchy) n
     <> Some (JStr ""))
  /\ ICD11GraphBuilder.get_children_with_info
       (ICD11GraphBuilder.build
          (ICD11GraphBuilder.init dangling_child_hierarchy)) ""
     = Ok (JObj [("parent_id", JStr "B"); ("parent_title", JStr "");
                 ("children", JArr [])])
  /\ ICD11GraphBuilder.get_all_descendants_by_title
       (ICD11GraphBuilder.build
          (ICD11GraphBuilder.init dangling_child_hierarchy)) ""
     = Ok (JObj [("node_id", JStr "B"); ("title", JStr "");
                 ("direct_children", JArr []);
                 ("all_descendants", JArr []);
                 ("direct_children_count", JNum 0);
                 ("total_descendants_count", JNum 0)]).
Proof.
  split; [|split; reflexivity].
  intros n [<-|[<-|[]]]; discriminate.
Qed.

(** C5, amended: on a graph that has been built, when the target title
    equals no node's title attribute and, if the target is the empty
    string, every node has a title attribute (the scan reads a node
    without one as the empty title), both queries return the empty
    mapping and raise nothing. *)
Theorem no_title_match_returns_empty (self : ICD11GraphBuilder.t)
  (g : DiGraph.t) (target_title : string) :
  ICD11GraphBuilder.G self = Some g ->
  (forall n, In n (DiGraph.nodes g) ->
     GraphSpec.title_attribute g n <> Some (JStr target_title)
     /\ (GraphSpec.title_attribute g n = None -> target_title <> "")) ->
  ICD11GraphBuilder.get_children_with_info self target_title = Ok (JObj [])
  /\ ICD11GraphBuilder.get_all_descendants_by_title self target_title
     = Ok (JObj []).
Proof.
  intros HG Hno. apply (scans_without_match self g target_title HG).
  intros n Hn. destruct (Hno n Hn) as [Hattr Hbare].
  unfold GraphSpec.matches, GraphSpec.node_title, get_default.
  unfold GraphSpec.title_attribute in Hattr, Hbare.
  destruct (dict_get String.eqb (GraphSpec.attrs g n) "title") as [v|].
  - destruct (ICD11GraphBuilder.title_eqb v target_title) eqn:E; [|reflexivity].
    apply title_eqb_true in E. subst v. exfalso. apply Hattr. reflexivity.
  - change (String.eqb "" target_title = false).
    apply String.eqb_neq. intros E. apply (Hbare eq_refl).
    symmetry. exact E.
Qed.

Lemma no_title_match_returns_empty_witness :
  ICD11GraphBuilder.get_children_with_info
    (ICD11GraphBuilder.build
       (ICD11GraphBuilder.init dangling_child_hierarchy)) "Leaf"
  = Ok (JObj [])
  /\ ICD11GraphBuilder.get_all_descendants_by_title
       (ICD11GraphBuilder.build
          (ICD11GraphBuilder.init dangling_child_hierarchy)) "Leaf"
     = Ok (JObj []).
Proof.
  apply (no_title_match_returns_empty
           (ICD11GraphBuilder.build
              (ICD11GraphBuilder.init dangling_child_hierarchy))
           (ICD11GraphBuilder.build_graph dangling_child_hierarchy)
           "Leaf" eq_refl).
  intros n [<-|[<-|[]]]; split; discriminate.
Defined.

(** C8: on a built graph, [get_children_with_info] returns the result of
    the last node, in the iteration order of the scan, whose title is the
    target; a match met earlier in the scan is overwritten. *)
Theorem last_match_wins (h : list (string * HierarchyNode))
  (target_title n : string) :
  let g := ICD11GraphBuilder.build_graph h in
  GraphSpec.last_match g target_title n ->
  ICD11GraphBuilder.get_children_with_info
    (ICD11GraphBuilder.build (ICD11GraphBuilder.init h)) target_title
  = Ok (JObj [("parent_id", JStr n);
              ("parent_title", JStr target_title);
              ("children",
               JArr (map (GraphSpec.child_entry g) (DiGraph.adj g n)))]).
Proof.
  intros g [before [after [Hn [Hm Hafter]]]].
  pose proof (build_graph_wf h) as Hwf. fold g in Hwf.
  assert (Hin : In n (DiGraph.nodes g)).
  { rewrite Hn. apply in_or_app. right; left; reflexivity. }
  unfold ICD11GraphBuilder.get_children_with_info. simpl. fold g.
  rewrite (scan_last ICD11GraphBuilder.children_result g target_title
             before after n Hn); [| |exact Hm|exact Hafter].
  - rewrite (children_result_ok g n _ Hwf Hin).
    rewrite (title_eqb_true _ _ Hm). reflexivity.
  - intros m Hm'. rewrite (children_result_ok g m _ Hwf Hm').
    eexists; reflexivity.
Qed.

Lemma last_match_wins_witness :
  ICD11GraphBuilder.get_children_with_info
    (ICD11GraphBuilder.build
       (ICD11GraphBuilder.init shared_title_hierarchy)) "T"
  = Ok (JObj [("parent_id", JStr "Q"); ("parent_title", JStr "T");
              ("children", JArr [])]).
Proof.
  apply (last_match_wins shared_title_hierarchy "T" "Q").
  exists ["P"; "c"], []. split; [reflexivity|]. split; [reflexivity|].
  intros m [].
Defined.

(** C10, as written: when a later node bears the parent's title, the
    query on that title returns the later node, and the bare child of the
    parent is not in the result. *)
Lemma bare_child_hidden_by_later_match :
  dict_get String.eqb shared_title_hierarchy "P"
  = Some {| h_title := JStr "T"; h_def := JStr "first";
            h_synonyms := JArr []; h_parents := []; h_children := ["c"] |}
  /\ dict_mem String.eqb shared_title_hierarchy "c" = false
  /\ DiGraph.node_view
       (ICD11GraphBuilder.build_graph shared_title_hierarchy) "c" = Ok []
  /\ ICD11GraphBuilder.get_children_with_info
       (ICD11GraphBuilder.build
          (ICD11GraphBuilder.init shared_title_hierarchy)) "T"
     = Ok (JObj [("parent_id", JStr "Q"); ("parent_title", JStr "T");
                 ("children", JArr [])]).
Proof. repeat split. Qed.

(** C10, amended: when a short-id listed in a node's children is never a
    key of the hierarchy, after [build] that child is a node of the graph
    with no attributes and, provided the parent is the last node in
    iteration order whose title is the queried title,
    [get_children_with_info] on the parent's title returns that child
    with title ['N/A'], definition ['N/A'] and synonyms [[]]. *)
Theorem bare_child_reported (h : list (string * HierarchyNode))
  (p c target_title : string) (d : HierarchyNode) :
  let g := ICD11GraphBuilder.build_graph h in
  In (p, d) h ->
  In c (h_children d) ->
  (forall d', ~ In (c, d') h) ->
  GraphSpec.last_match g target_title p ->
  DiGraph.node_view g c = Ok []
  /\ exists info,
       ICD11GraphBuilder.get_children_with_info
         (ICD11GraphBuilder.build (ICD11GraphBuilder.init h)) target_title
       = Ok (JObj [("parent_id", JStr p);
                   ("parent_title", JStr target_title);
                   ("children", JArr info)])
       /\ In (JObj [("id", JStr c); ("title", JStr "N/A");
                    ("definition", JStr "N/A"); ("synonyms", JArr [])]) info.
Proof.
  intros g Hp Hc Hkey Hlast.
  pose proof (build_graph_wf h) as Hwf. fold g in Hwf.
  assert (Hadj : In c (DiGraph.adj g p)).
  { unfold g. rewrite build_graph_adj. unfold GraphSpec.first_occurrences.
    apply In_fold_adj_add. right. exact (In_edge_targets h p c d Hp Hc). }
  assert (Hnode : In c (DiGraph.nodes g)).
  { destruct Hwf as [_ He]. exact (He p c Hadj). }
  pose proof (build_graph_bare h c Hkey) as Hbare. fold g in Hbare.
  split.
  - rewrite (node_view_attrs g c Hnode), Hbare. reflexivity.
  - exists (map (GraphSpec.child_entry g) (DiGraph.adj g p)). split.
    + destruct Hlast as [before [after [Hn [Hm Hafter]]]].
      unfold ICD11GraphBuilder.get_children_with_info. simpl. fold g.
      rewrite (scan_last ICD11GraphBuilder.children_result g target_title
                 before after p Hn); [| |exact Hm|exact Hafter].
      * assert (Hin : In p (DiGraph.nodes g)).
        { rewrite Hn. apply in_or_app. right; left; reflexivity. }
        rewrite (children_result_ok g p _ Hwf Hin).
        rewrite (title_eqb_true _ _ Hm). reflexivity.
      * intros m Hm'. rewrite (children_result_ok g m _ Hwf Hm').
        eexists; reflexivity.
    + change (In (GraphSpec.bare_entry c)
                (map (GraphSpec.child_entry g) (DiGraph.adj g p))).
      replace (GraphSpec.bare_entry c) with (GraphSpec.child_entry g c).
      * apply in_map, Hadj.
      * unfold GraphSpec.child_entry. rewrite Hbare. reflexivity.
Qed.

Lemma bare_child_reported_witness :
  DiGraph.node_view
    (ICD11GraphBuilder.build_graph dangling_child_hierarchy) "B" = Ok []
  /\ exists info,
       ICD11GraphBuilder.get_children_with_info
         (ICD11GraphBuilder.build
            (ICD11GraphBuilder.init dangling_child_hierarchy)) "Root"
       = Ok (JObj [("parent_id", JStr "A"); ("parent_title", JStr "Root");
                   ("children", JArr info)])
       /\ In (JObj [("id", JStr "B"); ("title", JStr "N/A");
                    ("definition", JStr "N/A"); ("synonyms", JArr [])]) info.
Proof.
  apply (bare_child_reported dangling_child_hierarchy "A" "B" "Root"
           {| h_title := JStr "Root"; h_def := JStr "";
              h_synonyms := JArr []; h_parents := [];
              h_children := ["B"] |}).
  - left; reflexivity.
  - left; reflexivity.
  - intros d' [H|[]]. inversion H.
  - exists [], ["B"]. split; [reflexivity|]. split; [reflexivity|].
    intros m [<-|[]]. reflexivity.
Defined.

(** ** Descendants *)

Section Descendants.
Import DiGraph GraphSpec.
Variable g : t.
Hypothesis Hwf : wf g.
Variable source : string.

(** What one parent adds: its children not yet seen, once each. *)
Lemma fold_visit (children : list string) :
  forall seen fresh,
  exists new,
    fold_left visit children (seen, fresh) = (seen ++ new, fresh ++ new)
    /\ NoDup new
    /\ (forall x, In x new -> In x children /\ ~ In x seen)
    /\ (forall x, In x children -> In x seen \/ In x new).
Proof.
  induction children as [|c children IH]; intros seen fresh.
  - exists []. rewrite !app_nil_r. repeat split; auto using NoDup_nil.
  - cbn [fold_left visit].
    destruct (existsb (String.eqb c) seen) eqn:E.
    + apply existsb_eqb_In in E.
      destruct (IH seen fresh) as [new [Hf [Hnd [Hnew Hall]]]].
      exists new. split; [exact Hf|]. split; [exact Hnd|]. split.
      * intros x Hx. destruct (Hnew x Hx). split; [right|]; assumption.
      * intros x [<-|Hx]; [left; exact E|exact (Hall x Hx)].
    + assert (Hc : ~ In c seen).
      { intros H. apply existsb_eqb_In in H. congruence. }
      destruct (IH (seen ++ [c]) (fresh ++ [c])) as [new [Hf [Hnd [Hnew Hall]]]].
      exists (c :: new). rewrite Hf, <- !app_assoc. split; [reflexivity|].
      split; [|split].
      * constructor; [|exact Hnd]. intros Hin.
        destruct (Hnew c Hin) as [_ Hn]. apply Hn, in_or_app.
        right; left; reflexivity.
      * intros x [<-|Hx]; [split; [left; reflexivity|exact Hc]|].
        destruct (Hnew x Hx) as [H1 H2]. split; [right; exact H1|].
        intros H. apply H2, in_or_app. left; exact H.
      * intros x [<-|Hx]; [right; left; reflexivity|].
        destruct (Hall x Hx) as [H|H]; [|right; right; exact H].
        apply in_app_or in H as [H|[<-|[]]];
          [left; exact H|right; left; reflexivity].
Qed.

Lemma bfs_inv_done (seen : list string) :
  bfs_inv g source seen [] ->
  NoDup seen
  /\ (exists rest, seen = source :: rest)
  /\ forall x, In x seen <-> reach g source x.
Proof.
  intros [Hnd _ Hhead _ Hreach Hclosed].
  split; [exact Hnd|]. split; [exact Hhead|].
  intros x. split; [apply Hreach|].
  induction 1 as [|y z _ IH Hz].
  - destruct Hhead as [rest ->]. left; reflexivity.
  - destruct (Hclosed y IH) as [[]|Hc]. exact (Hc z Hz).
Qed.

Lemma bfs_inv_step (seen rest new : list string) (parent : string) :
  bfs_inv g source seen (parent :: rest) ->
  NoDup new ->
  (forall x, In x new -> In x (adj g parent) /\ ~ In x seen) ->
  (forall x, In x (adj g parent) -> In x seen \/ In x new) ->
  bfs_inv g source (seen ++ new) (rest ++ new).
Proof.
  intros [Hnd0 Hnodes Hhead Hqueue Hreach Hclosed] Hnd Hnew Hall.
  assert (Hp : In parent seen) by (apply Hqueue; left; reflexivity).
  constructor.
  - apply NoDup_app; [exact Hnd0|exact Hnd|].
    intros x Hx Hx'. destruct (Hnew x Hx') as [_ H]. exact (H Hx).
  - intros x Hx. apply in_app_or in Hx as [Hx|Hx]; [exact (Hnodes x Hx)|].
    destruct Hwf as [_ He]. destruct (Hnew x Hx) as [H _].
    exact (He parent x H).
  - destruct Hhead as [r ->]. exists (r ++ new). reflexivity.
  - intros x Hx. apply in_or_app.
    apply in_app_or in Hx as [Hx|Hx]; [left|right; exact Hx].
    apply Hqueue. right; exact Hx.
  - intros x Hx. apply in_app_or in Hx as [Hx|Hx]; [exact (Hreach x Hx)|].
    destruct (Hnew x Hx) as [H _].
    exact (@reach_step g source parent x (Hreach parent Hp) H).
  - intros x Hx. apply in_app_or in Hx as [Hx|Hx].
    + destruct (Hclosed x Hx) as [[<-|Hq]|Hc].
      * right. intros y Hy. apply in_or_app. exact (Hall y Hy).
      * left. apply in_or_app. left; exact Hq.
      * right. intros y Hy. apply in_or_app. left; exact (Hc y Hy).
    + left. apply in_or_app. right; exact Hx.
Qed.

(** With fuel for every node still to be examined, the search ends
    with exactly the nodes reachable from [source]. *)
Lemma bfs_complete (fuel : nat) :
  forall seen queue,
    bfs_inv g source seen queue ->
    List.length queue + (List.length (nodes g) - List.length seen) <= fuel ->
    bfs_inv g source (bfs fuel g seen queue) [].
Proof.
  induction fuel as [|fuel IH]; intros seen queue I Hfuel.
  - destruct queue; [exact I|simpl in Hfuel; lia].
  - destruct queue as [|parent rest]; [exact I|].
    cbn [bfs].
    destruct (fold_visit (adj g parent) seen [])
      as [new [Hf [Hnd [Hnew Hall]]]].
    rewrite Hf. cbn [app].
    pose proof (bfs_inv_step seen rest new parent I Hnd Hnew Hall) as I'.
    apply IH; [exact I'|].
    destruct I' as [Hnd' Hnodes' _ _ _ _].
    pose proof (NoDup_incl_length Hnd' Hnodes') as Hlen.
    rewrite !length_app in *. simpl in Hfuel. lia.
Qed.

Lemma reach_plus_reach (x : string) :
  reach g source x <-> x = source \/ reach_plus g source x.
Proof.
  split.
  - induction 1 as [|y z _ IH Hz]; [left; reflexivity|].
    right. destruct IH as [->|IH].
    + apply plus_edge, Hz.
    + exact (@plus_step g source y z IH Hz).
  - intros [->|H]; [apply reach_refl|].
    induction H as [z Hz|y z _ IH Hz].
    + exact (@reach_step g source source z (@reach_refl g source) Hz).
    + exact (@reach_step g source y z IH Hz).
Qed.

(** [descendants] returns, without repetition, the nodes other than
    [source] that are reachable from it. *)
Lemma descendants_ok :
  In source (nodes g) ->
  exists all,
    descendants g source = Ok all
    /\ NoDup all
    /\ forall x, In x all <-> (x <> source /\ reach_plus g source x).
Proof.
  intros Hs. unfold descendants.
  apply (has_node_nodes g source Hwf) in Hs as Hh. rewrite Hh.
  assert (I0 : bfs_inv g source [source] [source]).
  { constructor.
    - constructor; [intros []|constructor].
    - intros x [<-|[]]. exact Hs.
    - exists []. reflexivity.
    - apply incl_refl.
    - intros x [<-|[]]. apply reach_refl.
    - intros x Hx. left; exact Hx. }
  assert (Hlen : List.length (node_ g) = List.length (nodes g)).
  { unfold nodes, dict_keys. rewrite length_map. reflexivity. }
  assert (Hpos : 1 <= List.length (nodes g)).
  { destruct (nodes g); [destruct Hs|simpl; lia]. }
  pose proof (bfs_complete (List.length (node_ g)) [source] [source] I0) as I.
  destruct (bfs_inv_done _ (I ltac:(simpl; lia))) as [Hnd [[rest Hrest] Hiff]].
  rewrite Hrest. exists rest. split; [reflexivity|].
  rewrite Hrest in Hnd, Hiff. inversion Hnd as [|? ? Hnotin Hnd']; subst.
  split; [exact Hnd'|].
  intros x. split.
  - intros Hx. assert (Hne : x <> source) by (intros ->; exact (Hnotin Hx)).
    split; [exact Hne|].
    destruct (proj1 (reach_plus_reach x) (proj1 (Hiff x) (or_intror Hx)))
      as [->|H]; [contradiction|exact H].
  - intros [Hne Hr].
    destruct (proj2 (Hiff x) (proj2 (reach_plus_reach x) (or_intror Hr)))
      as [<-|H]; [contradiction|exact H].
Qed.
End Descendants.

Lemma descendants_result_ok (g : DiGraph.t) (n : string) (title : json) :
  GraphSpec.wf g -> In n (DiGraph.nodes g) ->
  exists all,
    ICD11GraphBuilder.descendants_result g n title
    = Ok (JObj [("node_id", JStr n);
                ("title", title);
                ("direct_children", JArr (map JStr (DiGraph.adj g n)));
                ("all_descendants", JArr (map JStr all));
                ("direct_children_count",
                 JNum (Z.of_nat (List.length (DiGraph.adj g n))));
                ("total_descendants_count",
                 JNum (Z.of_nat (List.length all)))])
    /\ NoDup all
    /\ forall x, In x all <-> (x <> n /\ GraphSpec.reach_plus g n x).
Proof.
  intros Hwf Hn.
  destruct (descendants_ok g Hwf n Hn) as [all [Hd [Hnd Hiff]]].
  exists all. split; [|split; assumption].
  unfold ICD11GraphBuilder.descendants_result.
  rewrite Hd, (successors_ok g n Hwf Hn). reflexivity.
Qed.

(** Dropping repetitions, the graph's way and the list's way. *)
Lemma filter_and (p q : string -> bool) (l : list string) :
  filter q (filter p l) = filter (fun y => p y && q y) l.
Proof.
  induction l as [|x l IH]; [reflexivity|].
  cbn [filter]. destruct (p x); cbn [filter andb].
  - destruct (q x); rewrite IH; reflexivity.
  - exact IH.
Qed.

Lemma filter_absent (p : string -> bool) (x : string) (l : list string) :
  p x = false ->
  filter p (filter (fun y => negb (String.eqb y x)) l) = filter p l.
Proof.
  intros Hx. induction l as [|y l IH]; [reflexivity|].
  cbn [filter]. destruct (String.eqb y x) eqn:E; cbn [negb filter].
  - apply String.eqb_eq in E. subst y. rewrite Hx. exact IH.
  - rewrite IH. reflexivity.
Qed.

Lemma keep_first_filter (p : string -> bool) (l : list string) :
  GraphSpec.keep_first (filter p l) = filter p (GraphSpec.keep_first l).
Proof.
  induction l as [|x l IH]; [reflexivity|].
  cbn [filter GraphSpec.keep_first]. destruct (p x) eqn:Hx.
  - cbn [GraphSpec.keep_first]. rewrite IH. f_equal.
    rewrite !filter_and. apply filter_ext. intros y. apply andb_comm.
  - rewrite IH. symmetry. apply filter_absent, Hx.
Qed.

Lemma fold_adj_add_keep_first (l : list string) :
  forall acc,
    fold_left DiGraph.adj_add l acc
    = acc ++ GraphSpec.keep_first
               (filter (fun y => negb (existsb (String.eqb y) acc)) l).
Proof.
  induction l as [|x l IH]; intros acc.
  - rewrite app_nil_r. reflexivity.
  - cbn [fold_left filter]. unfold DiGraph.adj_add at 2.
    destruct (existsb (String.eqb x) acc) eqn:E; cbn [negb].
    + apply IH.
    + rewrite IH, <- app_assoc. cbn [app GraphSpec.keep_first].
      f_equal. f_equal. rewrite <- keep_first_filter, filter_and.
      f_equal. apply filter_ext. intros y.
      rewrite existsb_app. cbn [existsb].
      rewrite orb_false_r, negb_orb. reflexivity.
Qed.

Lemma first_occurrences_keep_first (l : list string) :
  GraphSpec.first_occurrences l = GraphSpec.keep_first l.
Proof.
  unfold GraphSpec.first_occurrences. rewrite fold_adj_add_keep_first.
  cbn [app existsb negb]. f_equal.
  induction l as [|x l IH]; [reflexivity|].
  cbn [filter]. rewrite IH. reflexivity.
Qed.

(** C9, as written: in a graph where ["P"] and ["Q"] both bear the title
    ["T"], ["P"] is matched by the title and has the descendant ["c"],
    but the query on ["T"] returns the later node ["Q"], with no
    descendants: what is reachable from ["P"] is not returned. *)
Lemma earlier_match_descendants_not_returned :
  GraphSpec.matches
    (ICD11GraphBuilder.build_graph shared_title_hierarchy) "T" "P" = true
  /\ In "c" (DiGraph.adj
               (ICD11GraphBuilder.build_graph shared_title_hierarchy) "P")
  /\ ICD11GraphBuilder.get_all_descendants_by_title
       (ICD11GraphBuilder.build
          (ICD11GraphBuilder.init shared_title_hierarchy)) "T"
     = Ok (JObj [("node_id", JStr "Q"); ("title", JStr "T");
                 ("direct_children", JArr []);
                 ("all_descendants", JArr []);
                 ("direct_children_count", JNum 0);
                 ("total_descendants_count", JNum 0)]).
Proof. split; [reflexivity|]. split; [left; reflexivity|reflexivity]. Qed.

(** C9, amended: on a built graph, for the last node, in the iteration
    order of the scan, whose title is the target,
    [get_all_descendants_by_title] returns as [all_descendants] the nodes
    reachable from it along one or more edges, itself excluded, each
    once; as [direct_children] its direct successors, which are the
    children that the hierarchy lists for it, in the order listed, each
    at its first occurrence; and as the two counts the sizes of these
    two collections. *)
Theorem descendants_of_matched_node (h : list (string * HierarchyNode))
  (target_title n : string) :
  let g := ICD11GraphBuilder.build_graph h in
  GraphSpec.last_match g target_title n ->
  exists direct all,
    ICD11GraphBuilder.get_all_descendants_by_title
      (ICD11GraphBuilder.build (ICD11GraphBuilder.init h)) target_title
    = Ok (JObj [("node_id", JStr n);
                ("title", JStr target_title);
                ("direct_children", JArr (map JStr direct));
                ("all_descendants", JArr (map JStr all));
                ("direct_children_count",
                 JNum (Z.of_nat (List.length direct)));
                ("total_descendants_count",
                 JNum (Z.of_nat (List.length all)))])
    /\ NoDup all
    /\ (forall x, In x all <-> (x <> n /\ GraphSpec.reach_plus g n x))
    /\ direct = DiGraph.adj g n
    /\ direct = GraphSpec.keep_first (GraphSpec.edge_targets h n).
Proof.
  intros g [before [after [Hn [Hm Hafter]]]].
  pose proof (build_graph_wf h) as Hwf. fold g in Hwf.
  assert (Hin : In n (DiGraph.nodes g)).
  { rewrite Hn. apply in_or_app. right; left; reflexivity. }
  destruct (descendants_result_ok g n (GraphSpec.node_title g n) Hwf Hin)
    as [all [Hres [Hnd Hiff]]].
  exists (DiGraph.adj g n), all.
  split; [|split; [exact Hnd|split; [exact Hiff|split; [reflexivity|]]]].
  - unfold ICD11GraphBuilder.get_all_descendants_by_title. simpl. fold g.
    rewrite (scan_last ICD11GraphBuilder.descendants_result g target_title
               before after n Hn); [| |exact Hm|exact Hafter].
    + rewrite Hres, (title_eqb_true _ _ Hm). reflexivity.
    + intros m Hm'.
      destruct (descendants_result_ok g m (GraphSpec.node_title g m) Hwf Hm')
        as [all' [Hres' _]].
      eexists; exact Hres'.
  - unfold g. rewrite build_graph_adj. apply first_occurrences_keep_first.
Qed.

Lemma descendants_of_matched_node_witness :
  exists direct all,
    ICD11GraphBuilder.get_all_descendants_by_title
      (ICD11GraphBuilder.build
         (ICD11GraphBuilder.init dangling_child_hierarchy)) "Root"
    = Ok (JObj [("node_id", JStr "A");
                ("title", JStr "Root");
                ("direct_children", JArr (map JStr direct));
                ("all_descendants", JArr (map JStr all));
                ("direct_children_count",
                 JNum (Z.of_nat (List.length direct)));
                ("total_descendants_count",
                 JNum (Z.of_nat (List.length all)))])
    /\ NoDup all
    /\ (forall x, In x all <->
                  (x <> "A"
                   /\ GraphSpec.reach_plus
                        (ICD11GraphBuilder.build_graph
                           dangling_child_hierarchy) "A" x))
    /\ direct
       = DiGraph.adj (ICD11GraphBuilder.build_graph dangling_child_hierarchy)
           "A"
    /\ direct
       = GraphSpec.keep_first
           (GraphSpec.edge_targets dangling_child_hierarchy "A").
Proof.
  apply (descendants_of_matched_node dangling_child_hierarchy "Root" "A").
  exists [], ["B"]. split; [reflexivity|]. split; [reflexivity|].
  intros m [<-|[]]. reflexivity.
Defined.

(** * Further properties of the code *)

(** ** Normalisation: what [process] reads, raises and keeps *)

(** X1: [process] never reads the keys of the raw mapping: two raw
    mappings that hold the same entries in the same order, under whatever
    keys, give the same normalized output, or raise the same error. *)
Theorem process_ignores_raw_keys (raw raw' : list (string * json)) :
  map snd raw = map snd raw' ->
  ICD11Processor.process raw = ICD11Processor.process raw'.
Proof.
  unfold ICD11Processor.process. generalize (@nil (json * NormalizedRecord)).
  revert raw'.
  induction raw as [|[k v] raw IH]; intros [|[k' v'] raw'] acc H;
    try discriminate H; [reflexivity|].
  cbn [map snd] in H. inversion H as [[Hv Hrest]]. subst v'.
  rewrite !for_each_cons.
  change (ICD11Processor.process_step acc (k', v))
    with (ICD11Processor.process_step acc (k, v)).
  destruct (ICD11Processor.process_step acc (k, v)); cbn [bind];
    [apply IH; exact Hrest|reflexivity].
Qed.

Lemma process_ignores_raw_keys_witness :
  ICD11Processor.process
    [("K1", JObj [("@id", JStr "a")]); ("K2", JObj [("@id", JStr "b")])]
  = ICD11Processor.process
      [("x", JObj [("@id", JStr "a")]); ("y", JObj [("@id", JStr "b")])].
Proof. apply process_ignores_raw_keys. reflexivity. Defined.

Lemma extract_values_not_obj (v : json) :
  is_obj v = false -> ICD11Processor.extract_values v = Err AttributeError.
Proof. destruct v; simpl; try reflexivity. discriminate. Qed.

Lemma field_not_obj (d : list (string * json)) (key : string) :
  field_obj d key = false ->
  get (get_default d key (JObj [])) "@value" (JStr "") = Err AttributeError.
Proof.
  unfold field_obj, get_default.
  destruct (dict_get String.eqb d key) as [v|]; [|discriminate].
  destruct v; simpl; try reflexivity. discriminate.
Qed.

Lemma extract_values_bad_field (d : list (string * json)) :
  field_obj d "title" = false \/ field_obj d "definition" = false ->
  ICD11Processor.extract_values (JObj d) = Err AttributeError.
Proof.
  intros H. unfold ICD11Processor.extract_values.
  rewrite !get_obj. cbn [bind].
  destruct (field_obj d "title") eqn:Et.
  - destruct H as [H|H]; [discriminate H|].
    destruct (field_obj_get _ _ Et) as [o [-> _]]. rewrite get_obj. cbn [bind].
    rewrite (field_not_obj _ _ H). reflexivity.
  - rewrite (field_not_obj _ _ Et). reflexivity.
Qed.

Lemma process_prefix_ok (before : list (string * json)) :
  (forall k v, In (k, v) before -> well_shaped v = true) ->
  exists acc, for_each ICD11Processor.process_step before [] = Ok acc.
Proof.
  intros H.
  destruct (process_from_total before H []
              (fun key r (Hin : In (key, r) []) => match Hin with end))
    as [acc [Hacc _]].
  exists acc. exact Hacc.
Qed.

(** X2: [process] raises AttributeError at the first entry that is not an
    object, or whose ['title'] or ['definition'] is present and is not an
    object, whatever follows it. *)
Theorem process_raises_on_malformed (before after : list (string * json))
  (k : string) (v : json) :
  (forall k' v', In (k', v') before -> well_shaped v' = true) ->
  (is_obj v = false
   \/ exists d, v = JObj d
                /\ (field_obj d "title" = false
                    \/ field_obj d "definition" = false)) ->
  ICD11Processor.process (before ++ (k, v) :: after) = Err AttributeError.
Proof.
  intros Hb Hv. unfold ICD11Processor.process.
  destruct (process_prefix_ok before Hb) as [acc Hacc].
  rewrite for_each_app, Hacc. cbn [bind]. rewrite for_each_cons.
  unfold ICD11Processor.process_step at 1.
  assert (He : ICD11Processor.extract_values v = Err AttributeError).
  { destruct Hv as [Hv|[d [-> Hd]]].
    - apply extract_values_not_obj, Hv.
    - apply extract_values_bad_field, Hd. }
  rewrite He. reflexivity.
Qed.

Lemma process_raises_on_malformed_witness :
  ICD11Processor.process
    ([("a", JObj [("@id", JStr "a")])]
     ++ ("b", JObj [("@id", JStr "b"); ("definition", JNull)])
     :: [("c", JObj [("@id", JStr "c")])])
  = Err AttributeError.
Proof.
  apply process_raises_on_malformed.
  - intros k' v' [H|[]]. inversion H. reflexivity.
  - right. eexists. split; [reflexivity|]. right. reflexivity.
Defined.



Lemma synonym_values_filter (l : list json) :
  forallb synonym_ok l = true ->
  ICD11Processor.synonym_values l = Ok (filter truthy (map label_value l)).
Proof.
  induction l as [|syn l IH]; intros H; [reflexivity|].
  cbn [forallb] in H. apply andb_true_iff in H as [Hs Hl].
  cbn [ICD11Processor.synonym_values map filter]. rewrite (IH Hl).
  destruct syn as [| | | | |s]; simpl in Hs; try discriminate Hs.
  destruct (field_obj_get _ _ Hs) as [o [Ho _]].
  rewrite !get_obj. cbn [bind]. unfold label_value. rewrite Ho, !get_obj.
  cbn [bind]. unfold get_default.
  destruct (dict_get String.eqb o "@value") as [x|]; [|reflexivity].
  destruct (truthy x); reflexivity.
Qed.

(** X4: the [synonyms] of a normalized record are the ['label'] values of
    the entry's synonyms that are not empty, in the order of the entry:
    empty and missing labels are left out and nothing else is. *)
Theorem synonyms_are_nonempty_labels (d : list (string * json))
  (l : list json) (r : NormalizedRecord) :
  ICD11Processor.extract_values (JObj d) = Ok r ->
  dict_get String.eqb d "synonym" = Some (JArr l) ->
  forallb synonym_ok l = true ->
  n_synonyms r = JArr (filter truthy (map label_value l)).
Proof.
  unfold ICD11Processor.extract_values. intros H Hs Hl.
  rewrite !get_obj in H. cbn [bind] in H.
  apply bind_ok in H as [title [_ H]].
  apply bind_ok in H as [def [_ H]].
  apply bind_ok in H as [syns [Hsyns H]].
  inversion H; subst r; cbn [n_synonyms]. f_equal.
  unfold get_default in Hsyns. rewrite Hs in Hsyns.
  destruct l as [|x l]; [inversion Hsyns; reflexivity|].
  change (truthy (JArr (x :: l))) with true in Hsyns. cbv iota in Hsyns.
  change (iterate (JArr (x :: l))) with (Ok (x :: l)) in Hsyns.
  cbn [bind] in Hsyns. rewrite (synonym_values_filter _ Hl) in Hsyns.
  inversion Hsyns. reflexivity.
Qed.

Lemma synonyms_are_nonempty_labels_witness :
  n_synonyms
    {| n_id := JNull; n_parent := JStr ""; n_child := JStr "";
       n_title := JStr ""; n_def := JStr "";
       n_synonyms := JArr [JStr "flu"; JStr "grippe"] |}
  = JArr (filter truthy
            (map label_value
               [JObj [("label", JObj [("@value", JStr "flu")])];
                JObj [("label", JObj [("@value", JStr "")])];
                JObj [];
                JObj [("label", JObj [("@value", JStr "grippe")])]])).
Proof.
  apply (synonyms_are_nonempty_labels
           [("synonym",
             JArr [JObj [("label", JObj [("@value", JStr "flu")])];
                   JObj [("label", JObj [("@value", JStr "")])];
                   JObj [];
                   JObj [("label", JObj [("@value", JStr "grippe")])]])]).
  - reflexivity.
  - reflexivity.
  - reflexivity.
Defined.

Lemma py_key_eqb_euclid (a b c : json) :
  py_key_eqb a b = true -> py_key_eqb a c = true -> py_key_eqb b c = true.
Proof.
  destruct a as [|x|x|x|x|x], b as [|y|y|y|y|y], c as [|z|z|z|z|z];
    cbn [py_key_eqb]; try discriminate; try reflexivity; intros H1 H2;
    repeat match goal with
      | H : Bool.eqb _ _ = true |- _ => apply Bool.eqb_prop in H
      | H : Z.eqb _ _ = true |- _ => apply Z.eqb_eq in H
      | H : String.eqb _ _ = true |- _ => apply String.eqb_eq in H
      end; subst;
    try apply Bool.eqb_reflx; try apply Z.eqb_refl; try apply String.eqb_refl.
  - destruct y, z; simpl in *; congruence.
Qed.

Lemma process_from_keeps (after : list (string * json)) (id : json) :
  (forall k' v', In (k', v') after ->
                 py_key_eqb (canonical_id v') id = false) ->
  forall acc out,
    for_each ICD11Processor.process_step after acc = Ok out ->
    dict_get py_key_eqb out id = dict_get py_key_eqb acc id.
Proof.
  induction after as [|[k v] after IH]; intros Hne acc out H.
  - inversion H; reflexivity.
  - rewrite for_each_cons in H. apply bind_ok in H as [acc1 [Hs H]].
    rewrite (IH (fun k' v' Hin => Hne k' v' (or_intror Hin)) acc1 out H).
    destruct (process_step_ok _ _ _ _ Hs) as [r [Hr [[_ ->]|[_ [_ ->]]]]];
      [reflexivity|].
    pose proof (Hne k v (or_introl eq_refl)) as Hk.
    rewrite <- (extract_values_id _ _ Hr) in Hk.
    apply dict_get_set_other; [exact Hk|].
    intros k' H1 H2. rewrite (py_key_eqb_euclid _ _ _ H1 H2) in Hk.
    discriminate Hk.
Qed.

(** X5: when several entries carry the same ['@id'], the normalized
    output holds, under that id, the record of the last of them: an entry
    with a non-empty id that no later entry repeats is found under its
    id, exactly as [extract_values] made it. *)
Theorem last_entry_with_an_id_is_kept (before after : list (string * json))
  (k : string) (v : json) (r : NormalizedRecord)
  (out : list (json * NormalizedRecord)) :
  ICD11Processor.process (before ++ (k, v) :: after) = Ok out ->
  ICD11Processor.extract_values v = Ok r ->
  truthy (n_id r) = true ->
  (forall k' v', In (k', v') after ->
                 py_key_eqb (canonical_id v') (n_id r) = false) ->
  dict_get py_key_eqb out (n_id r) = Some r.
Proof.
  unfold ICD11Processor.process. intros H Hr Ht Hafter.
  rewrite for_each_app in H. apply bind_ok in H as [acc0 [_ H]].
  rewrite for_each_cons in H. apply bind_ok in H as [acc1 [Hs H]].
  rewrite (process_from_keeps after (n_id r) Hafter acc1 out H).
  destruct (process_step_ok _ _ _ _ Hs) as [r' [Hr' Hcase]].
  rewrite Hr in Hr'. inversion Hr'; subst r'.
  destruct Hcase as [[Hf _]|[_ [Hh ->]]]; [congruence|].
  apply dict_get_set_same, py_key_eqb_refl, Hh.
Qed.

Lemma last_entry_with_an_id_is_kept_witness :
  dict_get py_key_eqb
    [(JStr "u", {| n_id := JStr "u"; n_parent := JStr ""; n_child := JStr "";
                   n_title := JStr "second"; n_def := JStr "";
                   n_synonyms := JArr [] |})]
    (JStr "u")
  = Some {| n_id := JStr "u"; n_parent := JStr ""; n_child := JStr "";
            n_title := JStr "second"; n_def := JStr "";
            n_synonyms := JArr [] |}.
Proof.
  apply (last_entry_with_an_id_is_kept
           [("a", JObj [("@id", JStr "u");
                        ("title", JObj [("@value", JStr "first")])])]
           [] "b"
           (JObj [("@id", JStr "u");
                  ("title", JObj [("@value", JStr "second")])])
           {| n_id := JStr "u"; n_parent := JStr ""; n_child := JStr "";
              n_title := JStr "second"; n_def := JStr "";
              n_synonyms := JArr [] |}).
  - reflexivity.
  - reflexivity.
  - reflexivity.
  - intros k' v' [].
Defined.

Lemma dict_mem_str_keys (acc : list (json * NormalizedRecord)) (s : string) :
  dict_mem py_key_eqb acc (JStr s) = true -> In (JStr s) (dict_keys acc).
Proof.
  intros H. apply dict_mem_In in H as [k [v [Hin He]]].
  apply py_key_eqb_str in He. subst k.
  unfold dict_keys. exact (in_map fst _ _ Hin).
Qed.

Lemma process_from_keys_in_order (raw : list (string * json)) :
  forall ids acc out,
    map (fun kv => canonical_id (snd kv)) raw = map JStr ids ->
    NoDup ids ->
    (forall s, In s ids -> s <> "" /\ ~ In (JStr s) (dict_keys acc)) ->
    for_each ICD11Processor.process_step raw acc = Ok out ->
    dict_keys out = dict_keys acc ++ map JStr ids.
Proof.
  induction raw as [|[k v] raw IH]; intros ids acc out Hids Hnd Hnew H.
  - destruct ids; [|discriminate Hids]. inversion H.
    rewrite app_nil_r. reflexivity.
  - destruct ids as [|s ids]; [discriminate Hids|].
    cbn [map snd] in Hids. inversion Hids as [[Hid Hrest]].
    rewrite for_each_cons in H. apply bind_ok in H as [acc1 [Hs H]].
    inversion Hnd as [|? ? Hnotin Hnd']; subst.
    destruct (Hnew s (or_introl eq_refl)) as [Hne Hfresh].
    destruct (process_step_ok _ _ _ _ Hs) as [r [Hr Hcase]].
    pose proof (extract_values_id _ _ Hr) as Hrid. rewrite Hid in Hrid.
    assert (Hacc1 : dict_keys acc1 = dict_keys acc ++ [JStr s]).
    { destruct Hcase as [[Hf _]|[_ [_ ->]]].
      - rewrite Hrid in Hf. simpl in Hf. apply negb_false_iff in Hf.
        apply String.eqb_eq in Hf. contradiction.
      - rewrite Hrid, dict_keys_set.
        destruct (dict_mem py_key_eqb acc (JStr s)) eqn:Em; [|reflexivity].
        apply dict_mem_str_keys in Em. contradiction. }
    rewrite (IH ids acc1 out Hrest Hnd'); [|  |exact H].
    + rewrite Hacc1, <- app_assoc. reflexivity.
    + intros s' Hs'. destruct (Hnew s' (or_intror Hs')) as [Hne' Hfresh'].
      split; [exact Hne'|]. rewrite Hacc1. intros Hin.
      apply in_app_or in Hin as [Hin|[Hin|[]]]; [contradiction|].
      inversion Hin; subst. contradiction.
Qed.

(** X6: when the entries' ['@id'] values are non-empty strings, all
    different, the normalized output has one record per entry and its
    keys are these ids in the order of the input. *)
Theorem distinct_ids_keep_input_order (raw : list (string * json))
  (ids : list string) (out : list (json * NormalizedRecord)) :
  map (fun kv => canonical_id (snd kv)) raw = map JStr ids ->
  NoDup ids ->
  (forall s, In s ids -> s <> "") ->
  ICD11Processor.process raw = Ok out ->
  dict_keys out = map JStr ids /\ List.length out = List.length raw.
Proof.
  intros Hids Hnd Hne H.
  assert (Hk : dict_keys out = map JStr ids).
  { apply (process_from_keys_in_order raw ids [] out Hids Hnd); [|exact H].
    intros s Hs. split; [exact (Hne s Hs)|intros []]. }
  split; [exact Hk|].
  apply (f_equal (@List.length json)) in Hk, Hids.
  unfold dict_keys in Hk. rewrite !length_map in Hk, Hids. congruence.
Qed.

Lemma distinct_ids_keep_input_order_witness :
  dict_keys
    [(JStr "http://x/A",
      {| n_id := JStr "http://x/A"; n_parent := JStr "";
         n_child := JArr [JStr "http://x/B"]; n_title := JStr "Root";
         n_def := JStr ""; n_synonyms := JArr [] |});
     (JStr "http://x/B",
      {| n_id := JStr "http://x/B"; n_parent := JArr [JStr "http://x/A"];
         n_child := JStr ""; n_title := JStr "Leaf"; n_def := JStr "";
         n_synonyms := JArr [] |})]
  = map JStr ["http://x/A"; "http://x/B"].
Proof.
  apply (proj1 (distinct_ids_keep_input_order scenario_raw_with_ids
                  ["http://x/A"; "http://x/B"] _ eq_refl
                  ltac:(repeat constructor; simpl; intuition discriminate)
                  ltac:(intros s [<-|[<-|[]]]; discriminate)
                  eq_refl)).
Defined.

Lemma dict_set_length {K V : Type} (eqb : K -> K -> bool)
  (d : list (K * V)) (k : K) (v : V) :
  List.length (dict_set eqb d k v) <= S (List.length d).
Proof.
  induction d as [|[k' v'] d IH]; simpl; [lia|].
  destruct (eqb k' k); simpl; lia.
Qed.

(** X7: the normalized output never has more records than the raw mapping
    has entries. *)
Theorem processed_at_most_loaded (raw : list (string * json))
  (out : list (json * NormalizedRecord)) :
  ICD11Processor.process raw = Ok out ->
  List.length out <= List.length raw.
Proof.
  unfold ICD11Processor.process.
  assert (G : forall acc, for_each ICD11Processor.process_step raw acc = Ok out ->
                List.length out <= List.length acc + List.length raw).
  { induction raw as [|[k v] raw IH]; intros acc H.
    - inversion H. simpl. lia.
    - rewrite for_each_cons in H. apply bind_ok in H as [acc1 [Hs H]].
      apply IH in H.
      destruct (process_step_ok _ _ _ _ Hs) as [r [_ [[_ ->]|[_ [_ ->]]]]].
      + simpl. lia.
      + pose proof (dict_set_length py_key_eqb acc (n_id r) r). simpl. lia. }
  intros H. exact (G [] H).
Qed.

Lemma processed_at_most_loaded_witness :
  List.length (@nil (json * NormalizedRecord)) <= List.length scenario_raw.
Proof. apply processed_at_most_loaded. reflexivity. Defined.

(** ** The hierarchy: what [extract_uids] and [build] raise and keep *)

Lemma map_result_non_string (l : list json) :
  (exists x, In x l /\ forall s, x <> JStr s) ->
  map_result ICD11HierarchyBuilder.extract_uid_val l = Err AttributeError.
Proof.
  induction l as [|y l IH]; intros [x [Hin Hx]]; [destruct Hin|].
  cbn [map_result].
  destruct y as [| | |s| |]; try reflexivity.
  cbn [ICD11HierarchyBuilder.extract_uid_val bind].
  destruct Hin as [<-|Hin]; [exfalso; exact (Hx s eq_refl)|].
  rewrite IH; [reflexivity|]. exists x. split; assumption.
Qed.

(** X8: [extract_uids] raises TypeError on a field that is a non-zero
    number or [True], which cannot be iterated, and AttributeError on a
    list that holds anything but strings. *)
Theorem extract_uids_raises :
  (forall z, z <> 0%Z ->
             ICD11HierarchyBuilder.extract_uids (JNum z) = Err TypeError)
  /\ ICD11HierarchyBuilder.extract_uids (JBool true) = Err TypeError
  /\ (forall l, (exists x, In x l /\ forall s, x <> JStr s) ->
                ICD11HierarchyBuilder.extract_uids (JArr l)
                = Err AttributeError).
Proof.
  split; [|split].
  - intros z Hz. unfold ICD11HierarchyBuilder.extract_uids. simpl.
    apply Z.eqb_neq in Hz. rewrite Hz. reflexivity.
  - reflexivity.
  - intros l H. unfold ICD11HierarchyBuilder.extract_uids.
    destruct l as [|y l]; [destruct H as [x [[] _]]|].
    change (truthy (JArr (y :: l))) with true. cbv iota.
    change (iterate (JArr (y :: l))) with (Ok (y :: l)). cbn [bind].
    apply map_result_non_string, H.
Qed.

Lemma extract_uids_raises_witness :
  ICD11HierarchyBuilder.extract_uids (JNum 7) = Err TypeError
  /\ ICD11HierarchyBuilder.extract_uids (JArr [JStr "http://x/A"; JNull])
     = Err AttributeError.
Proof.
  split.
  - apply (proj1 extract_uids_raises). discriminate.
  - apply (proj2 (proj2 extract_uids_raises)).
    exists JNull. split; [right; left; reflexivity|]. discriminate.
Defined.

Lemma extract_uid_char (c : ascii) :
  extract_uid (String c EmptyString) = char_uid c.
Proof.
  unfold extract_uid, rsplit1, char_uid. simpl.
  destruct (Ascii.eqb c "/"); reflexivity.
Qed.

Lemma code_points_ascii (s : string) :
  ascii_only s = true ->
  code_points s
  = map (fun c => String c EmptyString) (list_ascii_of_string s).
Proof.
  unfold ascii_only.
  induction s as [|c r IH]; intros H; [reflexivity|].
  cbn [list_ascii_of_string forallb] in H.
  apply andb_true_iff in H as [_ Hr].
  destruct r as [|c' r']; [reflexivity|].
  change (code_points (String c (String c' r')))
    with (if is_continuation c'
          then match code_points (String c' r') with
               | g :: gs => String c g :: gs
               | [] => [String c EmptyString]
               end
          else String c EmptyString :: code_points (String c' r')).
  assert (Hc : is_continuation c' = false).
  { cbn [list_ascii_of_string forallb] in Hr.
    apply andb_true_iff in Hr as [Hc _]. unfold is_continuation.
    apply Nat.ltb_lt in Hc. apply andb_false_iff. left.
    apply Nat.leb_gt. exact Hc. }
  rewrite Hc, (IH Hr). reflexivity.
Qed.

Lemma extract_uids_singletons (l : list ascii) :
  map_result ICD11HierarchyBuilder.extract_uid_val
    (map JStr (map (fun c => String c EmptyString) l))
  = Ok (map char_uid l).
Proof.
  induction l as [|c l IH]; [reflexivity|].
  cbn [map map_result ICD11HierarchyBuilder.extract_uid_val bind].
  rewrite IH, extract_uid_char. reflexivity.
Qed.

(** X9: on a field that is one non-empty string of ASCII characters,
    [extract_uids] returns one short identifier per character of the
    string: the character itself, or the empty string for a ['/']. *)
Theorem extract_uids_of_a_string (s : string) :
  s <> "" ->
  ascii_only s = true ->
  ICD11HierarchyBuilder.extract_uids (JStr s)
  = Ok (map char_uid (list_ascii_of_string s)).
Proof.
  intros Hs Ha. unfold ICD11HierarchyBuilder.extract_uids.
  assert (Ht : truthy (JStr s) = true).
  { simpl. apply negb_true_iff, String.eqb_neq, Hs. }
  rewrite Ht. cbn [iterate bind]. unfold chars.
  rewrite (code_points_ascii s Ha). apply extract_uids_singletons.
Qed.

Lemma extract_uids_of_a_string_witness :
  ICD11HierarchyBuilder.extract_uids (JStr "a/b") = Ok ["a"; ""; "b"].
Proof.
  apply (extract_uids_of_a_string "a/b"); [discriminate|reflexivity].
Defined.

(** X10: [build] raises AttributeError at the first key that is not a
    string, which has no [rsplit]. *)
Theorem build_raises_on_non_string_key
  (before after : list (json * NormalizedRecord)) (k : json)
  (v : NormalizedRecord) (st : ICD11HierarchyBuilder.state) :
  ICD11HierarchyBuilder.build_from ICD11HierarchyBuilder.init before = Ok st ->
  (forall s, k <> JStr s) ->
  ICD11HierarchyBuilder.build (before ++ (k, v) :: after)
  = Err AttributeError.
Proof.
  intros Hb Hk.
  unfold ICD11HierarchyBuilder.build, ICD11HierarchyBuilder.build_from in *.
  rewrite for_each_app, Hb. cbn [bind]. rewrite for_each_cons.
  destruct k as [| | |s| |]; try reflexivity.
  exfalso. exact (Hk s eq_refl).
Qed.

Lemma build_raises_on_non_string_key_witness :
  ICD11HierarchyBuilder.build
    ([] ++ (JNum 5,
            {| n_id := JNum 5; n_parent := JStr ""; n_child := JStr "";
               n_title := JStr ""; n_def := JStr "";
               n_synonyms := JArr [] |}) :: [])
  = Err AttributeError.
Proof.
  apply (build_raises_on_non_string_key [] [] (JNum 5) _
           ICD11HierarchyBuilder.init eq_refl).
  discriminate.
Defined.

Lemma build_step_state (st st' : ICD11HierarchyBuilder.state)
  (k : json) (v : NormalizedRecord) :
  ICD11HierarchyBuilder.build_step st (k, v) = Ok st' ->
  exists s node,
    k = JStr s /\ ICD11HierarchyBuilder.node_of v = Ok node
    /\ st' = {| ICD11HierarchyBuilder.UUIDs :=
                  ICD11HierarchyBuilder.set_add
                    (ICD11HierarchyBuilder.UUIDs st) (extract_uid s);
                ICD11HierarchyBuilder.Data :=
                  dict_set String.eqb (ICD11HierarchyBuilder.Data st)
                    (extract_uid s) node |}.
Proof.
  unfold ICD11HierarchyBuilder.build_step, ICD11HierarchyBuilder.extract_uid_val.
  destruct k; simpl; try discriminate.
  destruct (ICD11HierarchyBuilder.node_of v) as [node|e]; simpl; [|discriminate].
  intros H. inversion H; subst; simpl. eauto.
Qed.

Lemma adj_add_keys {V : Type} (d : list (string * V)) (u : string) (v : V) :
  DiGraph.adj_add (dict_keys d) u = dict_keys (dict_set String.eqb d u v).
Proof.
  rewrite dict_keys_set. unfold DiGraph.adj_add.
  destruct (dict_mem String.eqb d u) eqn:Em.
  - apply string_mem_In, existsb_eqb_In in Em. rewrite Em. reflexivity.
  - destruct (existsb (String.eqb u) (dict_keys d)) eqn:Ee; [|reflexivity].
    apply existsb_eqb_In, string_mem_In in Ee. congruence.
Qed.

Lemma In_set_insert (x y : string) (s : list string) :
  In y (ICD11HierarchyBuilder.set_insert x s) <-> y = x \/ In y s.
Proof.
  induction s as [|z s IH]; cbn [ICD11HierarchyBuilder.set_insert].
  - simpl. intuition auto.
  - destruct (String.compare x z) eqn:E.
    + apply String.compare_eq_iff in E. subst z. simpl. intuition auto.
    + simpl. intuition auto.
    + simpl. rewrite IH. intuition auto.
Qed.

Lemma In_set_add (x y : string) (s : list string) :
  In y (ICD11HierarchyBuilder.set_add s x) <-> In y s \/ y = x.
Proof.
  unfold ICD11HierarchyBuilder.set_add.
  destruct (existsb (String.eqb x) s) eqn:E.
  - apply existsb_eqb_In in E. split; [auto|]. intros [H| ->]; assumption.
  - rewrite In_set_insert. tauto.
Qed.

(** X11: after [build] on a fresh builder, the set [UUIDs] holds exactly
    the keys of [Data]. *)
Theorem uuids_are_the_keys_of_data (ICD11 : list (json * NormalizedRecord))
  (st : ICD11HierarchyBuilder.state) :
  ICD11HierarchyBuilder.build_from ICD11HierarchyBuilder.init ICD11 = Ok st ->
  forall u, In u (ICD11HierarchyBuilder.UUIDs st)
            <-> In u (dict_keys (ICD11HierarchyBuilder.Data st)).
Proof.
  apply (for_each_invariant ICD11HierarchyBuilder.build_step
           (fun st => forall u,
                In u (ICD11HierarchyBuilder.UUIDs st)
                <-> In u (dict_keys (ICD11HierarchyBuilder.Data st))) ICD11);
    [|intros u; reflexivity].
  intros s [k v] s' _ Hs Hstep u.
  destruct (build_step_state _ _ _ _ Hstep) as [x [node [_ [_ ->]]]].
  cbn [ICD11HierarchyBuilder.UUIDs ICD11HierarchyBuilder.Data].
  rewrite In_set_add, <- (adj_add_keys _ (extract_uid x) node).
  rewrite In_adj_add, Hs. reflexivity.
Qed.

Lemma uuids_are_the_keys_of_data_witness :
  In "A" ["A"; "B"]
  <-> In "A"
        (dict_keys
           [("B", {| h_title := JStr "one"; h_def := JStr "";
                     h_synonyms := JArr []; h_parents := [];
                     h_children := [] |});
            ("A", {| h_title := JStr "two"; h_def := JStr "";
                     h_synonyms := JArr []; h_parents := [];
                     h_children := [] |})]).
Proof.
  apply (uuids_are_the_keys_of_data
           [(JStr "http://x/B",
             {| n_id := JStr "http://x/B"; n_parent := JStr "";
                n_child := JStr ""; n_title := JStr "one"; n_def := JStr "";
                n_synonyms := JArr [] |});
            (JStr "http://y/A",
             {| n_id := JStr "http://y/A"; n_parent := JStr "";
                n_child := JStr ""; n_title := JStr "two"; n_def := JStr "";
                n_synonyms := JArr [] |})]
           {| ICD11HierarchyBuilder.UUIDs := ["A"; "B"];
              ICD11HierarchyBuilder.Data :=
                [("B", {| h_title := JStr "one"; h_def := JStr "";
                          h_synonyms := JArr []; h_parents := [];
                          h_children := [] |});
                 ("A", {| h_title := JStr "two"; h_def := JStr "";
                          h_synonyms := JArr []; h_parents := [];
                          h_children := [] |})] |}
           eq_refl "A").
Defined.

Lemma extract_uid_has_no_slash (s : string) : no_slash (extract_uid s) = true.
Proof.
  destruct (extract_uid_cases s) as [[H E]|[a [_ H]]]; [rewrite E|]; exact H.
Qed.

Lemma map_result_no_slash (items : list json) :
  forall l,
    map_result ICD11HierarchyBuilder.extract_uid_val items = Ok l ->
    Forall (fun u => no_slash u = true) l.
Proof.
  induction items as [|x items IH]; intros l H.
  - inversion H. constructor.
  - cbn [map_result] in H. apply bind_ok in H as [y [Hy H]].
    apply bind_ok in H as [ys [Hys H]]. inversion H; subst l.
    constructor; [|exact (IH ys Hys)].
    destruct x; simpl in Hy; try discriminate Hy.
    inversion Hy. apply extract_uid_has_no_slash.
Qed.

Lemma extract_uids_no_slash (field : json) (l : list string) :
  ICD11HierarchyBuilder.extract_uids field = Ok l ->
  Forall (fun u => no_slash u = true) l.
Proof.
  unfold ICD11HierarchyBuilder.extract_uids.
  destruct (truthy field).
  - intros H. apply bind_ok in H as [items [_ H]].
    exact (map_result_no_slash items l H).
  - intros H. inversion H. constructor.
Qed.

(** X12: every key of the hierarchy that [build] makes, and every
    identifier in a node's [parents] and [children], is free of ['/']. *)
Theorem hierarchy_ids_have_no_slash (ICD11 : list (json * NormalizedRecord))
  (Data : list (string * HierarchyNode)) :
  ICD11HierarchyBuilder.build ICD11 = Ok Data ->
  forall uid node, In (uid, node) Data ->
    no_slash uid = true
    /\ Forall (fun u => no_slash u = true) (h_parents node)
    /\ Forall (fun u => no_slash u = true) (h_children node).
Proof.
  intros H. apply bind_ok in H as [st [H HD]]. inversion HD; subst Data.
  revert H.
  apply (for_each_invariant ICD11HierarchyBuilder.build_step
           (fun st => forall uid node,
                In (uid, node) (ICD11HierarchyBuilder.Data st) ->
                no_slash uid = true
                /\ Forall (fun u => no_slash u = true) (h_parents node)
                /\ Forall (fun u => no_slash u = true) (h_children node))
           ICD11); [|intros uid node []].
  intros s [k v] s' _ Hs Hstep uid node Hin.
  destruct (build_step_state _ _ _ _ Hstep) as [u [node' [_ [Hn ->]]]].
  cbn [ICD11HierarchyBuilder.Data] in Hin.
  apply In_dict_set in Hin as [Hold|[-> Hkey]]; [exact (Hs uid node Hold)|].
  assert (Hu : uid = extract_uid u).
  { destruct Hkey as [->|He]; [reflexivity|]. apply String.eqb_eq in He.
    exact He. }
  subst uid. split; [apply extract_uid_has_no_slash|].
  unfold ICD11HierarchyBuilder.node_of in Hn.
  apply bind_ok in Hn as [ps [Hps Hn]]. apply bind_ok in Hn as [cs [Hcs Hn]].
  inversion Hn; subst node'. cbn [h_parents h_children].
  split; [exact (extract_uids_no_slash _ _ Hps)
         |exact (extract_uids_no_slash _ _ Hcs)].
Qed.

Lemma hierarchy_ids_have_no_slash_witness :
  no_slash "B" = true
  /\ Forall (fun u => no_slash u = true) ["A"]
  /\ Forall (fun u => no_slash u = true) [].
Proof.
  apply (hierarchy_ids_have_no_slash
           [(JStr "http://x/B",
             {| n_id := JStr "http://x/B";
                n_parent := JArr [JStr "http://x/A"]; n_child := JStr "";
                n_title := JStr "Leaf"; n_def := JStr "";
                n_synonyms := JArr [] |})]
           [("B", {| h_title := JStr "Leaf"; h_def := JStr "";
                     h_synonyms := JArr []; h_parents := ["A"];
                     h_children := [] |})]
           eq_refl "B"
           {| h_title := JStr "Leaf"; h_def := JStr "";
              h_synonyms := JArr []; h_parents := ["A"];
              h_children := [] |}).
  left; reflexivity.
Defined.

Lemma build_from_total (ICD11 : list (json * NormalizedRecord)) :
  forall ids st,
    map fst ICD11 = map JStr ids ->
    (forall k v, In (k, v) ICD11 ->
       exists parents children,
         refs_field (n_parent v) parents /\ refs_field (n_child v) children) ->
    exists st',
      ICD11HierarchyBuilder.build_from st ICD11 = Ok st'
      /\ dict_keys (ICD11HierarchyBuilder.Data st')
         = fold_left DiGraph.adj_add (map extract_uid ids)
             (dict_keys (ICD11HierarchyBuilder.Data st)).
Proof.
  unfold ICD11HierarchyBuilder.build_from.
  induction ICD11 as [|[k v] ICD11 IH]; intros ids st Hids Hrefs.
  - destruct ids; [|discriminate Hids]. exists st. split; reflexivity.
  - destruct ids as [|s ids]; [discriminate Hids|].
    cbn [map fst] in Hids. inversion Hids as [[Hk Hrest]]. subst k.
    destruct (Hrefs (JStr s) v (or_introl eq_refl)) as [ps [cs [Hp Hc]]].
    rewrite for_each_cons.
    unfold ICD11HierarchyBuilder.build_step at 1,
      ICD11HierarchyBuilder.node_of.
    cbn [ICD11HierarchyBuilder.extract_uid_val bind].
    rewrite (extract_uids_refs _ _ Hp), (extract_uids_refs _ _ Hc).
    cbn [bind].
    match goal with
    | |- exists st', for_each _ _ ?st1 = _ /\ _ =>
        destruct (IH ids st1 Hrest
                    (fun k' v' Hin => Hrefs k' v' (or_intror Hin)))
          as [st' [Hst' Hkeys]]
    end.
    exists st'. split; [exact Hst'|].
    rewrite Hkeys. cbn [ICD11HierarchyBuilder.Data map fold_left].
    rewrite <- adj_add_keys. reflexivity.
Qed.

(** X13: on records whose keys are strings and whose [parent] and [child]
    fields are each a list of reference strings or absent/empty, [build]
    raises nothing, and the keys of the hierarchy are the short
    identifiers of the records' keys, each at the place of its first
    occurrence. *)
Theorem build_succeeds_on_reference_lists
  (ICD11 : list (json * NormalizedRecord)) (ids : list string) :
  map fst ICD11 = map JStr ids ->
  (forall k v, In (k, v) ICD11 ->
     exists parents children,
       refs_field (n_parent v) parents /\ refs_field (n_child v) children) ->
  exists Data,
    ICD11HierarchyBuilder.build ICD11 = Ok Data
    /\ dict_keys Data = GraphSpec.first_occurrences (map extract_uid ids).
Proof.
  intros Hids Hrefs.
  destruct (build_from_total ICD11 ids ICD11HierarchyBuilder.init Hids Hrefs)
    as [st [Hst Hkeys]].
  exists (ICD11HierarchyBuilder.Data st). split; [|exact Hkeys].
  unfold ICD11HierarchyBuilder.build. rewrite Hst. reflexivity.
Qed.

Lemma build_succeeds_on_reference_lists_witness :
  exists Data,
    ICD11HierarchyBuilder.build
      [(JStr "http://x/A",
        {| n_id := JStr "http://x/A"; n_parent := JNull;
           n_child := JArr [JStr "http://x/B"]; n_title := JStr "Root";
           n_def := JStr ""; n_synonyms := JArr [] |});
       (JStr "http://y/A",
        {| n_id := JStr "http://y/A"; n_parent := JStr "";
           n_child := JArr []; n_title := JStr "Other";
           n_def := JStr ""; n_synonyms := JArr [] |})]
    = Ok Data
    /\ dict_keys Data
       = GraphSpec.first_occurrences
           (map extract_uid ["http://x/A"; "http://y/A"]).
Proof.
  apply build_succeeds_on_reference_lists; [reflexivity|].
  intros k v [H|[H|[]]]; inversion H; subst.
  - exists [], ["http://x/B"]. split;
      [apply refs_empty; reflexivity|apply (refs_list ["http://x/B"])].
  - exists [], []. split;
      [apply refs_empty; reflexivity|apply (refs_list [])].
Defined.

(** ** The graph: its nodes, edges and attributes *)

Section GraphShape.
Import DiGraph GraphSpec.

Lemma adj_add_present (l : list string) (x : string) :
  In x l -> adj_add l x = l.
Proof.
  intros H. unfold adj_add. apply existsb_eqb_In in H. rewrite H. reflexivity.
Qed.

Lemma NoDup_adj_add (l : list string) (x : string) :
  NoDup l -> NoDup (adj_add l x).
Proof.
  intros H. unfold adj_add. destruct (existsb (String.eqb x) l) eqn:E; [exact H|].
  apply NoDup_app; [exact H|constructor; [intros []|constructor]|].
  intros y Hy [<-|[]]. apply existsb_eqb_In in Hy. congruence.
Qed.

Lemma NoDup_fold_adj_add (l acc : list string) :
  NoDup acc -> NoDup (fold_left adj_add l acc).
Proof.
  revert acc. induction l as [|x l IH]; intros acc H; [exact H|].
  simpl. apply IH, NoDup_adj_add, H.
Qed.

Lemma ensure_node_nodes_add (g : t) (n : string) :
  wf g -> nodes (ensure_node g n) = adj_add (nodes g) n.
Proof.
  intros Hwf. rewrite (ensure_node_nodes g n Hwf). unfold adj_add.
  destruct (has_node g n) eqn:E.
  - apply (has_node_nodes g n Hwf), existsb_eqb_In in E. rewrite E.
    reflexivity.
  - destruct (existsb (String.eqb n) (nodes g)) eqn:E'; [|reflexivity].
    apply existsb_eqb_In, (has_node_nodes g n Hwf) in E'. congruence.
Qed.

Lemma add_edges_nodes (u : string) (children : list string) :
  forall g, wf g -> In u (nodes g) ->
    nodes (fold_left (fun g c => add_edge g u c) children g)
    = fold_left adj_add children (nodes g).
Proof.
  induction children as [|c children IH]; intros g Hwf Hu; [reflexivity|].
  cbn [fold_left].
  assert (Hn : nodes (add_edge g u c) = adj_add (nodes g) c).
  { rewrite add_edge_nodes, ensure_node_nodes_add;
      [|apply ensure_node_wf, Hwf].
    rewrite (ensure_node_nodes_add g u Hwf), (adj_add_present _ _ Hu).
    reflexivity. }
  rewrite IH; [rewrite Hn; reflexivity|apply add_edge_wf, Hwf|].
  rewrite Hn. apply In_adj_add. left; exact Hu.
Qed.

Lemma build_node_nodes (g : t) (k : string) (d : HierarchyNode) :
  wf g ->
  nodes (ICD11GraphBuilder.build_node g (k, d))
  = fold_left adj_add (k :: h_children d) (nodes g).
Proof.
  intros Hwf. unfold ICD11GraphBuilder.build_node.
  rewrite add_edges_nodes; [|apply add_node_wf, Hwf|].
  - rewrite (add_node_nodes g k _ Hwf), (ensure_node_nodes_add g k Hwf).
    reflexivity.
  - rewrite (add_node_nodes g k _ Hwf). apply ensure_node_In, Hwf.
Qed.

Lemma build_from_nodes (h : list (string * HierarchyNode)) :
  forall g, wf g ->
    nodes (fold_left ICD11GraphBuilder.build_node h g)
    = fold_left adj_add (node_mentions h) (nodes g).
Proof.
  induction h as [|[k d] h IH]; intros g Hwf; [reflexivity|].
  cbn [fold_left].
  destruct (build_node_facts g k d Hwf) as [Hwf1 _].
  rewrite (IH _ Hwf1), (build_node_nodes g k d Hwf).
  unfold node_mentions. cbn [flat_map fst snd].
  rewrite <- fold_left_app. reflexivity.
Qed.

Lemma In_edge_targets_iff (h : list (string * HierarchyNode))
  (u v : string) :
  In v (edge_targets h u) <-> exists d, In (u, d) h /\ In v (h_children d).
Proof.
  unfold edge_targets. rewrite in_flat_map. split.
  - intros [[k d] [Hin Hv]]. cbn [fst snd] in Hv.
    destruct (String.eqb k u) eqn:E; [|destruct Hv].
    apply String.eqb_eq in E. subst k. exists d. split; assumption.
  - intros [d [Hin Hv]]. exists (u, d). split; [exact Hin|].
    cbn [fst snd]. rewrite String.eqb_refl. exact Hv.
Qed.

Lemma attrs_add_node_same (g : t) (n : string) (a : list (string * json)) :
  wf g -> attrs (add_node g n a) n = dict_update (attrs g n) a.
Proof.
  intros Hwf. unfold attrs at 1, add_node. cbn [node_].
  rewrite string_get_set_same.
  change (dict_update (attrs (ensure_node g n) n) a
          = dict_update (attrs g n) a).
  rewrite (ensure_node_attrs g n n Hwf). reflexivity.
Qed.

Lemma build_node_attrs_same (g : t) (k : string) (d : HierarchyNode) :
  wf g -> attrs_shaped g ->
  attrs (ICD11GraphBuilder.build_node g (k, d)) k = node_attrs d.
Proof.
  intros Hwf Hs. unfold ICD11GraphBuilder.build_node.
  destruct (add_edges_facts k (h_children d)
              (add_node g k (node_attrs d))
              (add_node_wf g k (node_attrs d) Hwf)) as [_ [_ [Ha _]]].
  fold (node_attrs d). rewrite Ha, (attrs_add_node_same g k _ Hwf).
  destruct (Hs k) as [->|[d' ->]]; reflexivity.
Qed.

Lemma build_node_shaped (g : t) (k : string) (d : HierarchyNode) :
  wf g -> attrs_shaped g ->
  attrs_shaped (ICD11GraphBuilder.build_node g (k, d)).
Proof.
  intros Hwf Hs n. destruct (String.eqb k n) eqn:E.
  - apply String.eqb_eq in E. subst n. right. exists d.
    apply build_node_attrs_same; assumption.
  - destruct (build_node_facts g k d Hwf) as [_ [_ [Ha _]]].
    rewrite (Ha n); [apply Hs|]. apply String.eqb_neq, E.
Qed.

Lemma build_from_shaped (h : list (string * HierarchyNode)) :
  forall g, wf g -> attrs_shaped g ->
    attrs_shaped (fold_left ICD11GraphBuilder.build_node h g).
Proof.
  induction h as [|[k d] h IH]; intros g Hwf Hs; [exact Hs|].
  cbn [fold_left]. destruct (build_node_facts g k d Hwf) as [Hwf1 _].
  apply IH; [exact Hwf1|]. apply build_node_shaped; assumption.
Qed.

Lemma build_graph_attrs_key (h1 h2 : list (string * HierarchyNode))
  (c : string) (d : HierarchyNode) :
  (forall d', ~ In (c, d') h2) ->
  attrs (ICD11GraphBuilder.build_graph (h1 ++ (c, d) :: h2)) c = node_attrs d.
Proof.
  intros Hlast. unfold ICD11GraphBuilder.build_graph.
  rewrite fold_left_app. cbn [fold_left].
  destruct (build_from_facts h1 empty empty_wf) as [Hwf1 _].
  assert (Hs1 : attrs_shaped (fold_left ICD11GraphBuilder.build_node h1 empty)).
  { apply build_from_shaped; [exact empty_wf|]. intros n. left. reflexivity. }
  destruct (build_node_facts _ c d Hwf1) as [Hwf2 _].
  destruct (build_from_facts h2 _ Hwf2) as [_ [_ [Ha _]]].
  rewrite (Ha c Hlast). apply build_node_attrs_same; assumption.
Qed.

End GraphShape.

(** X14: the nodes of the built graph, in the order the scans visit them,
    are the identifiers that [build] mentions (each key, then its
    children) taken at their first mention; no node occurs twice. *)
Theorem graph_nodes_in_order_of_first_mention
  (h : list (string * HierarchyNode)) :
  DiGraph.nodes (ICD11GraphBuilder.build_graph h)
  = GraphSpec.first_occurrences (node_mentions h)
  /\ NoDup (DiGraph.nodes (ICD11GraphBuilder.build_graph h)).
Proof.
  assert (H : DiGraph.nodes (ICD11GraphBuilder.build_graph h)
              = GraphSpec.first_occurrences (node_mentions h)).
  { apply (build_from_nodes h DiGraph.empty empty_wf). }
  split; [exact H|]. rewrite H.
  apply NoDup_fold_adj_add. constructor.
Qed.

(** X15: the built graph has an edge from [u] to [v] exactly when some
    entry of the hierarchy keyed [u] lists [v] among its children; a
    child listed more than once is one successor. *)
Theorem graph_edges_are_the_children (h : list (string * HierarchyNode))
  (u v : string) :
  (In v (DiGraph.adj (ICD11GraphBuilder.build_graph h) u)
   <-> exists d, In (u, d) h /\ In v (h_children d))
  /\ NoDup (DiGraph.adj (ICD11GraphBuilder.build_graph h) u).
Proof.
  rewrite build_graph_adj. unfold GraphSpec.first_occurrences. split.
  - rewrite In_fold_adj_add, In_edge_targets_iff. simpl. tauto.
  - apply NoDup_fold_adj_add. constructor.
Qed.

(** X16: [build] never reads the [parents] lists: whatever they hold, the
    graph is the same. *)
Theorem graph_ignores_parents
  (f : string * HierarchyNode -> list string)
  (h : list (string * HierarchyNode)) :
  ICD11GraphBuilder.build_graph
    (map (fun kv => (fst kv, with_parents (snd kv) (f kv))) h)
  = ICD11GraphBuilder.build_graph h.
Proof.
  unfold ICD11GraphBuilder.build_graph. generalize DiGraph.empty.
  induction h as [|[k d] h IH]; intros g; [reflexivity|].
  cbn [map fold_left fst snd].
  change (ICD11GraphBuilder.build_node g (k, with_parents d (f (k, d))))
    with (ICD11GraphBuilder.build_node g (k, d)).
  apply IH.
Qed.

Lemma children_scan_result (h : list (string * HierarchyNode))
  (target_title n : string) :
  let g := ICD11GraphBuilder.build_graph h in
  GraphSpec.last_match g target_title n ->
  ICD11GraphBuilder.get_children_with_info
    (ICD11GraphBuilder.build (ICD11GraphBuilder.init h)) target_title
  = Ok (JObj [("parent_id", JStr n);
              ("parent_title", JStr target_title);
              ("children",
               JArr (map (GraphSpec.child_entry g) (DiGraph.adj g n)))]).
Proof.
  intros g [before [after [Hn [Hm Hafter]]]].
  pose proof (build_graph_wf h) as Hwf. fold g in Hwf.
  assert (Hin : In n (DiGraph.nodes g)).
  { rewrite Hn. apply in_or_app. right; left; reflexivity. }
  unfold ICD11GraphBuilder.get_children_with_info. simpl. fold g.
  rewrite (scan_last ICD11GraphBuilder.children_result g target_title
             before after n Hn); [| |exact Hm|exact Hafter].
  - rewrite (children_result_ok g n _ Hwf Hin).
    rewrite (title_eqb_true _ _ Hm). reflexivity.
  - intros m Hm'. rewrite (children_result_ok g m _ Hwf Hm').
    eexists; reflexivity.
Qed.

Lemma descendants_scan_result (h : list (string * HierarchyNode))
  (target_title n : string) :
  let g := ICD11GraphBuilder.build_graph h in
  GraphSpec.last_match g target_title n ->
  exists all,
    ICD11GraphBuilder.get_all_descendants_by_title
      (ICD11GraphBuilder.build (ICD11GraphBuilder.init h)) target_title
    = Ok (JObj [("node_id", JStr n);
                ("title", JStr target_title);
                ("direct_children", JArr (map JStr (DiGraph.adj g n)));
                ("all_descendants", JArr (map JStr all));
                ("direct_children_count",
                 JNum (Z.of_nat (List.length (DiGraph.adj g n))));
                ("total_descendants_count",
                 JNum (Z.of_nat (List.length all)))])
    /\ DiGraph.descendants g n = Ok all.
Proof.
  intros g [before [after [Hn [Hm Hafter]]]].
  pose proof (build_graph_wf h) as Hwf. fold g in Hwf.
  assert (Hin : In n (DiGraph.nodes g)).
  { rewrite Hn. apply in_or_app. right; left; reflexivity. }
  destruct (descendants_ok g Hwf n Hin) as [all [Hd _]].
  exists all. split; [|exact Hd].
  unfold ICD11GraphBuilder.get_all_descendants_by_title. simpl. fold g.
  rewrite (scan_last ICD11GraphBuilder.descendants_result g target_title
             before after n Hn); [| |exact Hm|exact Hafter].
  - unfold ICD11GraphBuilder.descendants_result.
    rewrite Hd, (successors_ok g n Hwf Hin), (title_eqb_true _ _ Hm).
    reflexivity.
  - intros m Hm'.
    destruct (descendants_result_ok g m (GraphSpec.node_title g m) Hwf Hm')
      as [all' [Hres' _]].
    eexists; exact Hres'.
Qed.

(** X17: a child that is itself a key of the hierarchy is reported by
    [get_children_with_info] with the title, definition and synonyms of
    its (last) entry, whatever they are, and not with ['N/A']. *)
Theorem keyed_child_reported_with_its_attributes
  (h1 h2 : list (string * HierarchyNode)) (p c target_title : string)
  (dc : HierarchyNode) :
  let h := h1 ++ (c, dc) :: h2 in
  let g := ICD11GraphBuilder.build_graph h in
  (forall d', ~ In (c, d') h2) ->
  In c (DiGraph.adj g p) ->
  GraphSpec.last_match g target_title p ->
  exists info,
    ICD11GraphBuilder.get_children_with_info
      (ICD11GraphBuilder.build (ICD11GraphBuilder.init h)) target_title
    = Ok (JObj [("parent_id", JStr p);
                ("parent_title", JStr target_title);
                ("children", JArr info)])
    /\ In (JObj [("id", JStr c); ("title", h_title dc);
                 ("definition", h_def dc); ("synonyms", h_synonyms dc)])
          info.
Proof.
  intros h g Hlast Hadj Hmatch.
  exists (map (GraphSpec.child_entry g) (DiGraph.adj g p)). split.
  - exact (children_scan_result h target_title p Hmatch).
  - replace (JObj [("id", JStr c); ("title", h_title dc);
                   ("definition", h_def dc); ("synonyms", h_synonyms dc)])
      with (GraphSpec.child_entry g c); [apply in_map, Hadj|].
    unfold GraphSpec.child_entry, g, h.
    rewrite (build_graph_attrs_key h1 h2 c dc Hlast). reflexivity.
Qed.

Lemma keyed_child_reported_with_its_attributes_witness :
  exists info,
    ICD11GraphBuilder.get_children_with_info
      (ICD11GraphBuilder.build
         (ICD11GraphBuilder.init
            ([("A", {| h_title := JStr "Root"; h_def := JStr "";
                       h_synonyms := JArr []; h_parents := [];
                       h_children := ["B"] |})]
             ++ ("B", {| h_title := JStr ""; h_def := JNull;
                         h_synonyms := JArr [JStr "leaf"];
                         h_parents := ["A"]; h_children := [] |}) :: [])))
      "Root"
    = Ok (JObj [("parent_id", JStr "A"); ("parent_title", JStr "Root");
                ("children", JArr info)])
    /\ In (JObj [("id", JStr "B"); ("title", JStr "");
                 ("definition", JNull); ("synonyms", JArr [JStr "leaf"])])
          info.
Proof.
  apply (keyed_child_reported_with_its_attributes
           [("A", {| h_title := JStr "Root"; h_def := JStr "";
                     h_synonyms := JArr []; h_parents := [];
                     h_children := ["B"] |})] [] "A" "B" "Root"
           {| h_title := JStr ""; h_def := JNull;
              h_synonyms := JArr [JStr "leaf"];
              h_parents := ["A"]; h_children := [] |}).
  - intros d' [].
  - left; reflexivity.
  - exists [], ["B"]. split; [reflexivity|]. split; [reflexivity|].
    intros m [<-|[]]. reflexivity.
Defined.

Lemma graph_edges_are_the_children_witness :
  In "B" (DiGraph.adj
            (ICD11GraphBuilder.build_graph dangling_child_hierarchy) "A").
Proof.
  apply (proj2 (proj1 (graph_edges_are_the_children
                         dangling_child_hierarchy "A" "B"))).
  eexists. split; [left; reflexivity|left; reflexivity].
Defined.

(** ** The queries on a built graph *)

Lemma last_match_exists (g : DiGraph.t) (target_title : string)
  (l : list string) :
  existsb (GraphSpec.matches g target_title) l = true ->
  exists before n after,
    l = before ++ n :: after
    /\ GraphSpec.matches g target_title n = true
    /\ forall m, In m after -> GraphSpec.matches g target_title m = false.
Proof.
  induction l as [|x l IH]; intros H; [discriminate H|].
  destruct (existsb (GraphSpec.matches g target_title) l) eqn:E.
  - destruct (IH eq_refl) as [before [n [after [-> [Hn Hafter]]]]].
    exists (x :: before), n, after. repeat split; assumption.
  - cbn [existsb] in H. rewrite E, orb_false_r in H.
    exists [], x, l. split; [reflexivity|]. split; [exact H|].
    intros m Hm.
    destruct (GraphSpec.matches g target_title m) eqn:Em; [|reflexivity].
    assert (Hex : existsb (GraphSpec.matches g target_title) l = true).
    { apply existsb_exists. exists m. split; assumption. }
    congruence.
Qed.

(** X18: once [build] has run, neither query raises, whatever the
    hierarchy and the title; and each returns the empty mapping exactly
    when no node's title (read as the scan reads it) is the target. *)
Theorem queries_total_and_empty_only_without_match
  (h : list (string * HierarchyNode)) (target_title : string) :
  let g := ICD11GraphBuilder.build_graph h in
  let self := ICD11GraphBuilder.build (ICD11GraphBuilder.init h) in
  (exists r, ICD11GraphBuilder.get_children_with_info self target_title = Ok r
             /\ (r = JObj [] <->
                 forall n, In n (DiGraph.nodes g) ->
                           GraphSpec.matches g target_title n = false))
  /\ (exists r,
        ICD11GraphBuilder.get_all_descendants_by_title self target_title = Ok r
        /\ (r = JObj [] <->
            forall n, In n (DiGraph.nodes g) ->
                      GraphSpec.matches g target_title n = false)).
Proof.
  intros g self.
  destruct (existsb (GraphSpec.matches g target_title) (DiGraph.nodes g)) eqn:E.
  - destruct (last_match_exists g target_title _ E)
      as [before [n [after [Hn [Hm Hafter]]]]].
    assert (Hlast : GraphSpec.last_match g target_title n).
    { exists before, after. repeat split; assumption. }
    assert (Hsome : ~ (forall m, In m (DiGraph.nodes g) ->
                                 GraphSpec.matches g target_title m = false)).
    { intros Hno. rewrite Hno in Hm; [discriminate Hm|].
      rewrite Hn. apply in_or_app. right; left; reflexivity. }
    split.
    + eexists. split; [exact (children_scan_result h target_title n Hlast)|].
      split; [discriminate|intros Hno; contradiction].
    + destruct (descendants_scan_result h target_title n Hlast)
        as [all [Hres _]].
      eexists. split; [exact Hres|].
      split; [discriminate|intros Hno; contradiction].
  - assert (Hno : forall m, In m (DiGraph.nodes g) ->
                            GraphSpec.matches g target_title m = false).
    { intros m Hm.
      destruct (GraphSpec.matches g target_title m) eqn:Em; [|reflexivity].
      assert (Hex : existsb (GraphSpec.matches g target_title)
                      (DiGraph.nodes g) = true).
      { apply existsb_exists. exists m. split; assumption. }
      congruence. }
    split; exists (JObj []); (split; [|split; [intros _; exact Hno|reflexivity]]).
    + apply scan_no_match; [apply incl_refl|exact Hno].
    + apply scan_no_match; [apply incl_refl|exact Hno].
Qed.

Lemma queries_total_and_empty_only_without_match_witness :
  exists r,
    ICD11GraphBuilder.get_children_with_info
      (ICD11GraphBuilder.build
         (ICD11GraphBuilder.init dangling_child_hierarchy)) ""
    = Ok r
    /\ (r = JObj [] <->
        forall n,
          In n (DiGraph.nodes
                  (ICD11GraphBuilder.build_graph dangling_child_hierarchy)) ->
          GraphSpec.matches
            (ICD11GraphBuilder.build_graph dangling_child_hierarchy) "" n
          = false).
Proof.
  exact (proj1 (queries_total_and_empty_only_without_match
                  dangling_child_hierarchy "")).
Defined.

Lemma reach_plus_needs_edge (g : DiGraph.t) (n x : string) :
  GraphSpec.reach_plus g n x -> DiGraph.adj g n <> [].
Proof.
  induction 1 as [z Hz|y z _ IH _]; [|exact IH].
  intros E. rewrite E in Hz. destruct Hz.
Qed.

(** X19: for a node of the built graph, [descendants] returns nodes of
    the graph that include every direct successor other than the node
    itself and every successor, other than the node itself, of a node
    already returned; for a node without successors it returns nothing. *)
Theorem descendants_closed_under_successors
  (h : list (string * HierarchyNode)) (n : string) :
  let g := ICD11GraphBuilder.build_graph h in
  In n (DiGraph.nodes g) ->
  exists all,
    DiGraph.descendants g n = Ok all
    /\ incl all (DiGraph.nodes g)
    /\ (forall c, In c (DiGraph.adj g n) -> c <> n -> In c all)
    /\ (forall x y, In x all -> In y (DiGraph.adj g x) -> y <> n -> In y all)
    /\ (DiGraph.adj g n = [] -> all = []).
Proof.
  intros g Hn.
  pose proof (build_graph_wf h) as Hwf. fold g in Hwf.
  destruct (descendants_ok g Hwf n Hn) as [all [Hd [_ Hiff]]].
  exists all. split; [exact Hd|]. split; [|split; [|split]].
  - intros x Hx. apply Hiff in Hx as [_ Hr].
    destruct Hwf as [_ He].
    destruct Hr as [z Hz|y z _ Hz]; [exact (He n z Hz)|exact (He y z Hz)].
  - intros c Hc Hne. apply Hiff. split; [exact Hne|].
    apply GraphSpec.plus_edge, Hc.
  - intros x y Hx Hy Hne. apply Hiff. split; [exact Hne|].
    apply Hiff in Hx as [_ Hr]. exact (@GraphSpec.plus_step g n x y Hr Hy).
  - intros Hleaf. destruct all as [|x all]; [reflexivity|].
    destruct (proj1 (Hiff x) (or_introl eq_refl)) as [_ Hr].
    exfalso. exact (reach_plus_needs_edge g n x Hr Hleaf).
Qed.

Lemma descendants_closed_under_successors_witness :
  exists all,
    DiGraph.descendants
      (ICD11GraphBuilder.build_graph dangling_child_hierarchy) "B" = Ok all
    /\ incl all (DiGraph.nodes
                   (ICD11GraphBuilder.build_graph dangling_child_hierarchy))
    /\ (forall c,
          In c (DiGraph.adj
                  (ICD11GraphBuilder.build_graph dangling_child_hierarchy)
                  "B") ->
          c <> "B" -> In c all)
    /\ (forall x y,
          In x all ->
          In y (DiGraph.adj
                  (ICD11GraphBuilder.build_graph dangling_child_hierarchy)
                  x) ->
          y <> "B" -> In y all)
    /\ (DiGraph.adj
          (ICD11GraphBuilder.build_graph dangling_child_hierarchy) "B" = [] ->
        all = []).
Proof.
  apply (descendants_closed_under_successors dangling_child_hierarchy "B").
  right; left; reflexivity.
Defined.

(** ** Running [build] of the hierarchy twice *)

Lemma dict_ext {V : Type} (A : list (string * V)) :
  forall B,
    dict_keys A = dict_keys B ->
    NoDup (dict_keys A) ->
    (forall k, dict_get String.eqb A k = dict_get String.eqb B k) ->
    A = B.
Proof.
  unfold dict_keys.
  induction A as [|[k v] A IH]; intros [|[k' v'] B] Hk Hnd Hget;
    try discriminate Hk; [reflexivity|].
  cbn [map fst] in Hk, Hnd. inversion Hk as [[Hkk HkB]]. subst k'.
  inversion Hnd as [|? ? Hnotin Hnd']; subst.
  pose proof (Hget k) as Hv. cbn [dict_get] in Hv.
  rewrite String.eqb_refl in Hv. inversion Hv; subst v'.
  f_equal. apply IH; [exact HkB|exact Hnd'|].
  intros k0. pose proof (Hget k0) as H0. cbn [dict_get] in H0.
  destruct (String.eqb k k0) eqn:E; [|exact H0].
  apply String.eqb_eq in E. subst k0.
  destruct (dict_get String.eqb A k) eqn:EA.
  - exfalso. apply Hnotin.
    assert (Hm : dict_mem String.eqb A k = true)
      by (unfold dict_mem; rewrite EA; reflexivity).
    apply string_mem_In in Hm. exact Hm.
  - destruct (dict_get String.eqb B k) eqn:EB; [|reflexivity].
    exfalso. apply Hnotin. rewrite HkB.
    assert (Hm : dict_mem String.eqb B k = true)
      by (unfold dict_mem; rewrite EB; reflexivity).
    apply string_mem_In in Hm. exact Hm.
Qed.

Lemma store_all_keys (us : list (string * HierarchyNode)) :
  forall D,
    dict_keys (store_all us D)
    = fold_left DiGraph.adj_add (map fst us) (dict_keys D).
Proof.
  induction us as [|[u n] us IH]; intros D; [reflexivity|].
  unfold store_all in *. cbn [fold_left map fst snd].
  rewrite IH, <- adj_add_keys. reflexivity.
Qed.

Lemma store_all_get (us : list (string * HierarchyNode)) (k : string) :
  forall D,
    dict_get String.eqb (store_all us D) k
    = last_bound k us (dict_get String.eqb D k).
Proof.
  induction us as [|[u n] us IH]; intros D; [reflexivity|].
  unfold store_all, last_bound in *. cbn [fold_left fst snd].
  rewrite IH. f_equal. destruct (String.eqb u k) eqn:E.
  - apply String.eqb_eq in E. subst. apply string_get_set_same.
  - apply string_get_set_other, String.eqb_neq, E.
Qed.

Lemma last_bound_twice (k : string) (us : list (string * HierarchyNode))
  (o : option HierarchyNode) :
  last_bound k us (last_bound k us o) = last_bound k us o.
Proof.
  assert (H : (forall o o', last_bound k us o = last_bound k us o')
              \/ (forall o, last_bound k us o = o)).
  { unfold last_bound. induction us as [|[u n] us IH]; [right; reflexivity|].
    cbn [fold_left fst snd]. destruct IH as [IH|IH].
    - left. intros o1 o2. apply IH.
    - destruct (String.eqb u k).
      + left. intros o1 o2. rewrite !IH. reflexivity.
      + right. exact IH. }
  destruct H as [H|H]; [apply H|rewrite !H; reflexivity].
Qed.

Lemma fold_adj_add_present (l K : list string) :
  (forall x, In x l -> In x K) -> fold_left DiGraph.adj_add l K = K.
Proof.
  revert K. induction l as [|x l IH]; intros K H; [reflexivity|].
  cbn [fold_left]. rewrite (adj_add_present K x (H x (or_introl eq_refl))).
  apply IH. intros y Hy. apply H. right; exact Hy.
Qed.

Lemma store_all_twice (us : list (string * HierarchyNode)) :
  store_all us (store_all us []) = store_all us [].
Proof.
  apply dict_ext.
  - rewrite (store_all_keys us (store_all us [])), (store_all_keys us []).
    apply fold_adj_add_present. intros x Hx.
    apply In_fold_adj_add. right; exact Hx.
  - rewrite (store_all_keys us (store_all us [])), (store_all_keys us []).
    rewrite fold_adj_add_present.
    + apply NoDup_fold_adj_add. constructor.
    + intros x Hx. apply In_fold_adj_add. right; exact Hx.
  - intros k. rewrite (store_all_get us k (store_all us [])),
      (store_all_get us k []). apply last_bound_twice.
Qed.

(** A run of [build] that succeeds is a sequence of assignments that
    does not depend on the state it starts from. *)
Lemma build_from_as_updates (ICD11 : list (json * NormalizedRecord)) :
  forall st st',
    ICD11HierarchyBuilder.build_from st ICD11 = Ok st' ->
    exists us,
      forall st0,
        ICD11HierarchyBuilder.build_from st0 ICD11
        = Ok {| ICD11HierarchyBuilder.UUIDs :=
                  fold_left ICD11HierarchyBuilder.set_add (map fst us)
                    (ICD11HierarchyBuilder.UUIDs st0);
                ICD11HierarchyBuilder.Data :=
                  store_all us (ICD11HierarchyBuilder.Data st0) |}.
Proof.
  unfold ICD11HierarchyBuilder.build_from.
  induction ICD11 as [|[k v] ICD11 IH]; intros st st' H.
  - exists []. intros [U D]. reflexivity.
  - rewrite for_each_cons in H. apply bind_ok in H as [st1 [Hs H]].
    destruct (build_step_state _ _ _ _ Hs) as [s [node [-> [Hn _]]]].
    destruct (IH st1 st' H) as [us Hus].
    exists ((extract_uid s, node) :: us). intros st0.
    rewrite for_each_cons.
    unfold ICD11HierarchyBuilder.build_step at 1.
    cbn [ICD11HierarchyBuilder.extract_uid_val bind]. rewrite Hn.
    cbn [bind]. rewrite Hus. reflexivity.
Qed.

Lemma In_fold_set_add (l K : list string) (x : string) :
  In x (fold_left ICD11HierarchyBuilder.set_add l K) <-> In x K \/ In x l.
Proof.
  revert K. induction l as [|y l IH]; intros K; simpl.
  - tauto.
  - rewrite IH, In_set_add. intuition auto.
Qed.

Lemma fold_set_add_present (l K : list string) :
  (forall x, In x l -> In x K) ->
  fold_left ICD11HierarchyBuilder.set_add l K = K.
Proof.
  revert K. induction l as [|x l IH]; intros K H; [reflexivity|].
  cbn [fold_left]. unfold ICD11HierarchyBuilder.set_add at 2.
  assert (Hx : existsb (String.eqb x) K = true)
    by (apply existsb_eqb_In, H; left; reflexivity).
  rewrite Hx. apply IH. intros y Hy. apply H. right; exact Hy.
Qed.

(** X20: calling [build] a second time on the same hierarchy builder
    raises nothing and leaves [UUIDs] and [Data] as the first call made
    them. *)
Theorem building_the_hierarchy_twice_changes_nothing
  (ICD11 : list (json * NormalizedRecord))
  (st : ICD11HierarchyBuilder.state) :
  ICD11HierarchyBuilder.build_from ICD11HierarchyBuilder.init ICD11 = Ok st ->
  ICD11HierarchyBuilder.build_from st ICD11 = Ok st.
Proof.
  intros H. destruct (build_from_as_updates ICD11 _ _ H) as [us Hus].
  rewrite (Hus ICD11HierarchyBuilder.init) in H. inversion H as [Hst].
  rewrite (Hus _). cbn [ICD11HierarchyBuilder.UUIDs ICD11HierarchyBuilder.Data].
  f_equal. f_equal.
  - apply fold_set_add_present. intros x Hx.
    apply In_fold_set_add. right; exact Hx.
  - apply store_all_twice.
Qed.

Lemma building_the_hierarchy_twice_changes_nothing_witness :
  ICD11HierarchyBuilder.build_from
    {| ICD11HierarchyBuilder.UUIDs := ["A"];
       ICD11HierarchyBuilder.Data :=
         [("A", {| h_title := JStr "two"; h_def := JStr "";
                   h_synonyms := JArr []; h_parents := [];
                   h_children := [] |})] |}
    [(JStr "http://x/A",
      {| n_id := JStr "http://x/A"; n_parent := JStr ""; n_child := JStr "";
         n_title := JStr "one"; n_def := JStr ""; n_synonyms := JArr [] |});
     (JStr "http://y/A",
      {| n_id := JStr "http://y/A"; n_parent := JStr ""; n_child := JStr "";
         n_title := JStr "two"; n_def := JStr ""; n_synonyms := JArr [] |})]
  = Ok {| ICD11HierarchyBuilder.UUIDs := ["A"];
          ICD11HierarchyBuilder.Data :=
            [("A", {| h_title := JStr "two"; h_def := JStr "";
                      h_synonyms := JArr []; h_parents := [];
                      h_children := [] |})] |}.
Proof.
  apply building_the_hierarchy_twice_changes_nothing. reflexivity.
Defined.

(** ** The three stages in sequence *)

Lemma process_output_origin (raw : list (string * json))
  (out : list (json * NormalizedRecord)) :
  ICD11Processor.process raw = Ok out ->
  forall key r, In (key, r) out ->
    py_key_eqb key (n_id r) = true
    /\ truthy (n_id r) = true
    /\ exists k v, In (k, v) raw /\ ICD11Processor.extract_values v = Ok r.
Proof.
  apply (for_each_invariant ICD11Processor.process_step
           (fun out => forall key r, In (key, r) out ->
              py_key_eqb key (n_id r) = true
              /\ truthy (n_id r) = true
              /\ exists k v, In (k, v) raw
                             /\ ICD11Processor.extract_values v = Ok r)
           raw); [|intros key r []].
  intros s [k v] s' Hin Hs Hstep key r Hkr.
  destruct (process_step_ok _ _ _ _ Hstep) as [r0 [Hr0 [[_ ->]|[Ht [Hh ->]]]]].
  - exact (Hs key r Hkr).
  - apply In_dict_set in Hkr as [Hold|[-> [->|He]]].
    + exact (Hs key r Hold).
    + split; [apply py_key_eqb_refl, Hh|]. split; [exact Ht|].
      exists k, v. auto.
    + split; [exact He|]. split; [exact Ht|]. exists k, v. auto.
Qed.

Lemma extract_values_refs (d : list (string * json)) (r : NormalizedRecord) :
  ICD11Processor.extract_values (JObj d) = Ok r ->
  n_parent r = get_default d "parent" (JStr "")
  /\ n_child r = get_default d "child" (JStr "").
Proof.
  unfold ICD11Processor.extract_values. intros H.
  rewrite !get_obj in H. cbn [bind] in H.
  repeat (apply bind_ok in H as [? [_ H]]).
  inversion H; subst. split; reflexivity.
Qed.

Lemma all_strings (l : list json) :
  forallb is_str l = true -> exists refs, l = map JStr refs.
Proof.
  induction l as [|x l IH]; intros H; [exists []; reflexivity|].
  cbn [forallb] in H. apply andb_true_iff in H as [Hx Hl].
  destruct (IH Hl) as [refs ->].
  destruct x; simpl in Hx; try discriminate Hx.
  eexists (_ :: refs). reflexivity.
Qed.

Lemma refs_ok_field (d : list (string * json)) (key : string) :
  refs_ok d key = true ->
  exists refs, refs_field (get_default d key (JStr "")) refs.
Proof.
  unfold refs_ok, get_default.
  destruct (dict_get String.eqb d key) as [v|].
  - destruct v as [|b|z|s|l|o]; intros H;
      try (exists []; apply refs_empty; apply negb_true_iff in H; exact H).
    destruct (all_strings l H) as [refs ->]. exists refs. apply refs_list.
  - intros _. exists []. apply refs_empty. reflexivity.
Qed.

Lemma string_keys (ICD11 : list (json * NormalizedRecord)) :
  (forall k v, In (k, v) ICD11 -> exists s, k = JStr s) ->
  exists ids, map fst ICD11 = map JStr ids.
Proof.
  induction ICD11 as [|[k v] l IH]; intros H; [exists []; reflexivity|].
  destruct (H k v (or_introl eq_refl)) as [s ->].
  destruct (IH (fun k' v' Hin => H k' v' (or_intror Hin))) as [ids Hids].
  exists (s :: ids). cbn [map fst]. rewrite Hids. reflexivity.
Qed.

Lemma queries_ok (h : list (string * HierarchyNode)) (target_title : string) :
  exists children descendants,
    ICD11GraphBuilder.get_children_with_info
      (ICD11GraphBuilder.build (ICD11GraphBuilder.init h)) target_title
    = Ok children
    /\ ICD11GraphBuilder.get_all_descendants_by_title
         (ICD11GraphBuilder.build (ICD11GraphBuilder.init h)) target_title
       = Ok descendants.
Proof.
  set (g := ICD11GraphBuilder.build_graph h).
  destruct (existsb (GraphSpec.matches g target_title) (DiGraph.nodes g)) eqn:E.
  - destruct (last_match_exists g target_title _ E)
      as [before [n [after [Hn [Hm Hafter]]]]].
    assert (Hlast : GraphSpec.last_match g target_title n).
    { exists before, after. repeat split; assumption. }
    destruct (descendants_scan_result h target_title n Hlast) as [all [Hres _]].
    do 2 eexists. split;
      [exact (children_scan_result h target_title n Hlast)|exact Hres].
  - assert (Hno : forall m, In m (DiGraph.nodes g) ->
                            GraphSpec.matches g target_title m = false).
    { intros m Hm.
      destruct (GraphSpec.matches g target_title m) eqn:Em; [|reflexivity].
      assert (Hex : existsb (GraphSpec.matches g target_title)
                      (DiGraph.nodes g) = true).
      { apply existsb_exists. exists m. split; assumption. }
      congruence. }
    exists (JObj []), (JObj []).
    split; apply scan_no_match; auto using incl_refl.
Qed.

(** X21: on a raw mapping whose entries all have the expected shape, with
    ['parent'] and ['child'] each absent, empty or a list of strings and
    ['@id'] absent, empty or a string, the three stages in sequence and
    the two queries raise nothing, for every title. *)
Theorem pipeline_succeeds_on_well_formed_input (raw : list (string * json))
  (target_title : string) :
  (forall k v, In (k, v) raw -> pipeline_ready v = true) ->
  exists out,
    run_pipeline raw target_title = Ok out
    /\ ICD11Processor.process raw = Ok (out_normalized out)
    /\ ICD11HierarchyBuilder.build (out_normalized out)
       = Ok (out_hierarchy out)
    /\ out_graph out
       = Some (ICD11GraphBuilder.build_graph (out_hierarchy out)).
Proof.
  intros Hready.
  assert (Hws : forall k v, In (k, v) raw -> well_shaped v = true).
  { intros k v Hin. pose proof (Hready k v Hin) as H.
    apply andb_true_iff in H as [H _]. exact H. }
  destruct (process_prefix_ok raw Hws) as [formatted Hf].
  change (ICD11Processor.process raw = Ok formatted) in Hf.
  pose proof (process_output_origin raw formatted Hf) as Horigin.
  assert (Hrec : forall key r, In (key, r) formatted ->
            (exists s, key = JStr s)
            /\ exists parents children,
                 refs_field (n_parent r) parents
                 /\ refs_field (n_child r) children).
  { intros key r Hin.
    destruct (Horigin key r Hin) as [He [Ht [k [v [Hraw Hr]]]]].
    pose proof (Hready k v Hraw) as H. apply andb_true_iff in H as [_ H].
    destruct v as [| | | | |d]; try discriminate H.
    apply andb_true_iff in H as [H Hid]. apply andb_true_iff in H as [Hp Hc].
    pose proof (extract_values_id _ _ Hr) as Hrid. cbn [canonical_id] in Hrid.
    destruct (extract_values_refs d r Hr) as [Hrp Hrc].
    split.
    - unfold id_str_ok in Hid. unfold get_default in Hrid.
      destruct (dict_get String.eqb d "@id") as [i|].
      + rewrite Hrid in Ht, He.
        destruct i as [|b|z|s|l|o];
          try (apply negb_true_iff in Hid; congruence).
        exists s. apply py_key_eqb_str, He.
      + rewrite Hrid in Ht. discriminate Ht.
    - destruct (refs_ok_field d "parent" Hp) as [ps Hps].
      destruct (refs_ok_field d "child" Hc) as [cs Hcs].
      exists ps, cs. rewrite Hrp, Hrc. split; assumption. }
  destruct (string_keys formatted (fun k v Hin => proj1 (Hrec k v Hin)))
    as [ids Hids].
  destruct (build_from_total formatted ids ICD11HierarchyBuilder.init Hids
              (fun k v Hin => proj2 (Hrec k v Hin))) as [st [Hst _]].
  assert (Hb : ICD11HierarchyBuilder.build formatted
               = Ok (ICD11HierarchyBuilder.Data st)).
  { unfold ICD11HierarchyBuilder.build. rewrite Hst. reflexivity. }
  destruct (queries_ok (ICD11HierarchyBuilder.Data st) target_title)
    as [children [descendants [Hc Hd]]].
  eexists. split.
  - unfold run_pipeline. rewrite Hf. cbn [bind]. rewrite Hb. cbn [bind].
    rewrite Hc. cbn [bind]. rewrite Hd. cbn [bind]. reflexivity.
  - cbn [out_normalized out_hierarchy out_graph]. repeat split; assumption.
Qed.

Lemma pipeline_succeeds_on_well_formed_input_witness :
  exists out,
    run_pipeline scenario_raw_with_ids "Leaf" = Ok out
    /\ ICD11Processor.process scenario_raw_with_ids = Ok (out_normalized out)
    /\ ICD11HierarchyBuilder.build (out_normalized out)
       = Ok (out_hierarchy out)
    /\ out_graph out
       = Some (ICD11GraphBuilder.build_graph (out_hierarchy out)).
Proof.
  apply pipeline_succeeds_on_well_formed_input.
  intros k v [H|[H|[]]]; inversion H; reflexivity.
Defined.
